(** * GEISHA image search: the incremental update job [src/update-data.py]

    The job is one linear script.  It reads the checkpoint file
    [last-updated], downloads the metadata of the images created since then,
    drops the images that are already saved or absent from the disk, runs the
    stage and the locations model on what is left, appends the results to the
    pickled dataset and finally advances the checkpoint and the update log.

    The script is embedded as a computation in a small state-and-exception
    monad over the files it touches.  Everything the script only observes
    (command line, remote endpoint, image disk, the two learners, the clock,
    the outcome of each write) is collected in one record [environment]. *)

From Stdlib Require Import String Ascii List Bool Arith Lia QArith.
From Stdlib Require Import Sorting.Sorted Sorting.Permutation Sorting.Mergesort.
From Stdlib Require Import Structures.OrderedTypeEx.
From Stdlib Require Import Numbers.DecimalString.
Import ListNotations.

Local Open Scope string_scope.
Local Open Scope list_scope.
Local Open Scope nat_scope.

(** ** Strings as Python compares them

    A Python [str] is compared code point by code point; the bytes of its
    UTF-8 encoding compare the same way, and [String.compare] is that
    lexicographic order on bytes. *)

Definition str_lt (s1 s2 : string) : Prop := String.compare s1 s2 = Lt.

Module StrOrder <: Orders.TotalLeBool.
Definition t := string.
Definition leb := String.leb.
Definition leb_total
  : forall a1 a2, leb a1 a2 = true \/ leb a2 a1 = true := String.leb_total.
End StrOrder.

Module StrSort := Sort StrOrder.

(** ** The NumPy calls of the script *)

Module np.

(** [np.append(arr, values)] on flat arrays. *)
Definition append {A : Type} (arr values : list A) : list A := arr ++ values.

(** The mask [ar[1:] != ar[:-1]] of [np.unique]: an entry of the sorted
    array is kept when it differs from the entry before it. *)
Fixpoint keep_changes (prev : string) (ar : list string) : list string :=
  match ar with
  | [] => []
  | x :: rest =>
      if String.eqb x prev then keep_changes x rest
      else x :: keep_changes x rest
  end.

(** [np.unique(ar)]: sort, then keep the first entry of each run. *)
Definition unique (ar : list string) : list string :=
  match StrSort.sort ar with
  | [] => []
  | x :: rest => x :: keep_changes x rest
  end.

(** [x in ar], an elementwise [==] followed by [any]. *)
Definition contains (ar : list string) (x : string) : bool :=
  existsb (String.eqb x) ar.

(** [np.setdiff1d(ar1, ar2)]: both arguments are made unique, then the
    entries of [ar1] found in [ar2] are masked out. *)
Definition setdiff1d (ar1 ar2 : list string) : list string :=
  let ar1 := unique ar1 in
  let ar2 := unique ar2 in
  filter (fun x => negb (contains ar2 x)) ar1.

End np.

(** [torch.cat] along the first dimension and [len] of a tensor; a tensor is
    kept as the list of its rows.  The rows of the tensors the script joins
    are taken to have one width: the [RuntimeError] that [torch.cat] raises
    on tensors of different widths is not part of this model. *)

Definition tensor_row := list Q.

Module torch.
Definition cat (a b : list tensor_row) : list tensor_row := a ++ b.
End torch.

(** ** Data model *)

(** One line of the metadata payload, read with
    [names = ["fname", "stage", "locations"]]. *)
Record metadata_record := {
  fname : string;
  stage : string;
  locations : string
}.

(** What [urlretrieve] stored, as [pd.read_csv] reads it back: text that it
    rejects; rows whose [fname] values are all of type [str]; or rows among
    which some [fname] value is not a [str] (an empty or NA-like field, read
    as [NaN], or an all-numeric column, read as numbers). *)
Inductive csv_payload :=
| Unparsable
| Rows (rows : list metadata_record)
| NonTextNames.

(** The 3-tuple pickled in [../data/database-image-predictions.pkl]. *)
Record dataset := {
  database_image_filenames : list string;
  database_image_stages : list tensor_row;
  database_image_locations : list tensor_row
}.

(** The files the script reads and writes.  [None] is a file that is absent
    (or, for the pickle, one that [pickle.load] cannot read back). *)
Record files := {
  last_updated : option string;
  database_image_predictions : option dataset;
  data_updates_log : option string;
  temporary_downloads : bool;
  new_images_csv : option csv_payload
}.

(** The [DataBunch] built from the new images: its root, its items and its
    batch size. *)
Record databunch := {
  path : string;
  items : list string;
  bs : nat
}.

Record date := { year : nat; month : nat; day : nat }.

(** How an [open(..., "w" | "wb" | "a")] followed by one write ends. *)
Inductive write_outcome :=
| Completed
| FailedOnOpen
| FailedAfterOpen.

(** Everything the run observes and does not control. *)
Record environment := {
  sys_argv : list string;
  urlretrieve : string -> option csv_payload;
  os_path_exists : string -> bool;
  stage_get_preds : databunch -> list tensor_row * list Q;
  locations_get_preds : databunch -> list tensor_row * list Q;
  date_today : date;
  dataset_write : write_outcome;
  last_updated_write : write_outcome;
  log_write : write_outcome
}.

Inductive exception :=
| TypeError
| NameError (name : string)
| FileNotFoundError (file : string)
| URLError
| ParserError
| DatasetLoadError
| AssertionError
| OSError (file : string).

(** The calls of the script an observer of the process sees, in order:
    [print]; [urlretrieve] with the address string it is given (the call
    that also stores the payload in the scratch file); [load_learner];
    [get_preds]; and the script's own [open] in a writing mode, lines 105,
    114 and 116. *)
Inductive event :=
| Stdout (msg : string)
| UrlRetrieve (url : string)
| LoadLearner (file : string)
| GetPreds (file : string)
| OpenForWriting (file : string).

Record world := {
  disk : files;
  trace : list event
}.

(** ** The monad of the script: state that survives a raised exception *)

Inductive result (A : Type) :=
| Ok (a : A)
| Raise (e : exception).
Arguments Ok {A} a.
Arguments Raise {A} e.

Definition M (A : Type) : Type := world -> result A * world.

Definition ret {A : Type} (a : A) : M A := fun w => (Ok a, w).

Definition raise {A : Type} (e : exception) : M A := fun w => (Raise e, w).

Definition bind {A B : Type} (c : M A) (k : A -> M B) : M B :=
  fun w =>
    match c w with
    | (Ok a, w1) => k a w1
    | (Raise e, w1) => (Raise e, w1)
    end.

Declare Scope script_scope.
Delimit Scope script_scope with script.
Notation "x <- c ;; k" := (bind c (fun x => k))
  (at level 61, c at next level, right associativity) : script_scope.
Notation "c ;;; k" := (bind c (fun _ => k))
  (at level 61, right associativity) : script_scope.
Local Open Scope script_scope.

Definition emit (e : event) : M unit :=
  fun w => (Ok tt, {| disk := disk w; trace := trace w ++ [e] |}).

Definition get_files : M files := fun w => (Ok (disk w), w).

Definition put_files (f : files) : M unit :=
  fun w => (Ok tt, {| disk := f; trace := trace w |}).

Definition print (msg : string) : M unit := emit (Stdout msg).

(** ** File names and file updates *)

Definition last_updated_file : string := "last-updated".
Definition dataset_file : string := "../data/database-image-predictions.pkl".
Definition log_file : string := "data-updates-log".
Definition new_images_metadata_path : string := "temporary-downloads/new_images.csv".

Definition set_last_updated (v : option string) (f : files) : files :=
  {| last_updated := v;
     database_image_predictions := database_image_predictions f;
     data_updates_log := data_updates_log f;
     temporary_downloads := temporary_downloads f;
     new_images_csv := new_images_csv f |}.

Definition set_database (v : option dataset) (f : files) : files :=
  {| last_updated := last_updated f;
     database_image_predictions := v;
     data_updates_log := data_updates_log f;
     temporary_downloads := temporary_downloads f;
     new_images_csv := new_images_csv f |}.

Definition set_log (v : option string) (f : files) : files :=
  {| last_updated := last_updated f;
     database_image_predictions := database_image_predictions f;
     data_updates_log := v;
     temporary_downloads := temporary_downloads f;
     new_images_csv := new_images_csv f |}.

Definition set_temporary_downloads (v : bool) (f : files) : files :=
  {| last_updated := last_updated f;
     database_image_predictions := database_image_predictions f;
     data_updates_log := data_updates_log f;
     temporary_downloads := v;
     new_images_csv := new_images_csv f |}.

Definition set_new_images_csv (v : option csv_payload) (f : files) : files :=
  {| last_updated := last_updated f;
     database_image_predictions := database_image_predictions f;
     data_updates_log := data_updates_log f;
     temporary_downloads := temporary_downloads f;
     new_images_csv := v |}.

(** ** Formatting *)

Definition str_of_nat (n : nat) : string :=
  NilEmpty.string_of_uint (Nat.to_uint n).

(** The directives [%m], [%d] and [%y]: two digits, zero padded, the year
    without its century. *)
Definition two_digits (n : nat) : string :=
  (str_of_nat ((n mod 100) / 10) ++ str_of_nat (n mod 10))%string.

(** [d.strftime("%m/%d/%y")]. *)
Definition strftime (d : date) : string :=
  (two_digits (month d) ++ "/" ++ two_digits (day d) ++ "/"
     ++ two_digits (year d))%string.

(** ** The script, top to bottom *)

(** Lines 31-34: with one argument the name is bound, with none the run
    stops, and with any other count the name is left unbound. *)
Definition grab_image_home_dir (env : environment) : M (option string) :=
  if length (sys_argv env) =? 1 then raise TypeError
  else if length (sys_argv env) =? 2 then ret (Some (nth 1 (sys_argv env) EmptyString))
  else ret None.

(** Reading a global name that may never have been assigned. *)
Definition load_name (name : string) (v : option string) : M string :=
  match v with
  | Some x => ret x
  | None => raise (NameError name)
  end.

(** Lines 40-43: [os.mkdir] with [FileExistsError] swallowed. *)
Definition mkdir_temporary_downloads : M unit :=
  f <- get_files ;; put_files (set_temporary_downloads true f).

(** Lines 46-47. *)
Definition read_last_updated : M string :=
  f <- get_files ;;
  match last_updated f with
  | Some s => ret s
  | None => raise (FileNotFoundError last_updated_file)
  end.

(** Line 50. *)
Definition new_images_metadata_url (since : string) : string :=
  ("http://geisha.arizona.edu/geisha/Images/metadata?scope=public&since="
     ++ since)%string.

(** Line 52.  The event records the address string as the script passes it
    to [urlretrieve]; what [urllib] does with that string before it sends
    the request (it trims surrounding whitespace) is part of the answer
    [urlretrieve env].  The payload is stored in the scratch file by the
    library call itself, not by an [open] of the script. *)
Definition download_metadata (env : environment) (url : string) : M unit :=
  emit (UrlRetrieve url) ;;;
  match urlretrieve env url with
  | None => raise URLError
  | Some payload =>
      f <- get_files ;; put_files (set_new_images_csv (Some payload) f)
  end.

(** Line 53.  [None] is a frame in which some [fname] is not a [str]. *)
Definition read_csv : M (option (list metadata_record)) :=
  f <- get_files ;;
  match new_images_csv f with
  | None => raise (FileNotFoundError new_images_metadata_path)
  | Some Unparsable => raise ParserError
  | Some (Rows rows) => ret (Some rows)
  | Some NonTextNames => ret None
  end.

(** Lines 57-58.  [DatasetLoadError] stands for the [FileNotFoundError] of
    [open] on an absent file and for the error of [pickle.load] on a file it
    cannot read back; the model does not tell them apart. *)
Definition load_database : M dataset :=
  f <- get_files ;;
  match database_image_predictions f with
  | Some db => ret db
  | None => raise DatasetLoadError
  end.

(** Lines 61-66: the loop that collects the names to drop.  Both tests are
    evaluated on every turn, so an unbound [image_home_dir] raises on the
    first name. *)
Fixpoint mark_images_to_remove (env : environment)
    (image_home_dir : option string) (saved : list string)
    (new_image_fnames images_to_remove : list string) : M (list string) :=
  match new_image_fnames with
  | [] => ret images_to_remove
  | name :: rest =>
      let already_saved := np.contains saved name in
      home <- load_name "image_home_dir" image_home_dir ;;
      let doesnt_exist := negb (os_path_exists env (home ++ name)%string) in
      mark_images_to_remove env image_home_dir saved rest
        (if already_saved || doesnt_exist
         then np.append images_to_remove [name]
         else images_to_remove)
  end.

(** Lines 61-68: the filter. *)
Definition remove_saved_or_missing (env : environment)
    (image_home_dir : option string) (saved new_image_fnames : list string)
  : M (list string) :=
  images_to_remove <-
    mark_images_to_remove env image_home_dir saved new_image_fnames [] ;;
  ret (np.setdiff1d new_image_fnames images_to_remove).

(** Lines 31-68: everything up to the test of line 71.  The result is the
    state of the three globals the rest of the script reads.  On a frame
    with a name that is not a [str], the loop of lines 62-66 stops at
    [image_home_dir+fname]: with [NameError] on its first turn when the
    directory is unbound, with [TypeError] on that name otherwise. *)
Definition find_new_images (env : environment)
  : M (option string * dataset * list string) :=
  image_home_dir <- grab_image_home_dir env ;;
  mkdir_temporary_downloads ;;;
  last_updated <- read_last_updated ;;
  print "Checking for new images" ;;;
  download_metadata env (new_images_metadata_url last_updated) ;;;
  new_image_metadata <- read_csv ;;
  db <- load_database ;;
  match new_image_metadata with
  | Some rows =>
      let new_image_fnames := map fname rows in
      new_image_fnames <-
        remove_saved_or_missing env image_home_dir
          (database_image_filenames db) new_image_fnames ;;
      ret (image_home_dir, db, new_image_fnames)
  | None =>
      home <- load_name "image_home_dir" image_home_dir ;;
      raise TypeError
  end.

Definition stage_model_file : string := "../models/stage-prediction-model.pkl".
Definition locations_model_file : string :=
  "../models/locations-prediction-model.pkl".

Definition assert (b : bool) : M unit :=
  if b then ret tt else raise AssertionError.

(** Lines 103-110: [open] in mode [wb] empties the file before anything is
    dumped into it. *)
Definition save_object (env : environment) (obj : dataset) : M unit :=
  emit (OpenForWriting dataset_file) ;;;
  match dataset_write env with
  | Completed => f <- get_files ;; put_files (set_database (Some obj) f)
  | FailedOnOpen => raise (OSError dataset_file)
  | FailedAfterOpen =>
      f <- get_files ;; put_files (set_database None f) ;;;
      raise (OSError dataset_file)
  end.

(** Lines 114-115: mode [w]. *)
Definition write_last_updated (env : environment) (current_date : string)
  : M unit :=
  emit (OpenForWriting last_updated_file) ;;;
  match last_updated_write env with
  | Completed =>
      f <- get_files ;; put_files (set_last_updated (Some current_date) f)
  | FailedOnOpen => raise (OSError last_updated_file)
  | FailedAfterOpen =>
      f <- get_files ;; put_files (set_last_updated (Some EmptyString) f) ;;;
      raise (OSError last_updated_file)
  end.

Definition file_text (content : option string) : string :=
  match content with
  | Some s => s
  | None => EmptyString
  end.

(** Lines 116-117: mode [a] creates the file when it is absent. *)
Definition append_log (env : environment) (line : string) : M unit :=
  emit (OpenForWriting log_file) ;;;
  match log_write env with
  | Completed =>
      f <- get_files ;;
      put_files
        (set_log (Some (file_text (data_updates_log f) ++ line)%string) f)
  | FailedOnOpen => raise (OSError log_file)
  | FailedAfterOpen =>
      f <- get_files ;;
      put_files (set_log (Some (file_text (data_updates_log f))) f) ;;;
      raise (OSError log_file)
  end.

(** The line of line 117. *)
Definition log_line (current_date : string) (new_image_fnames : list string)
  : string :=
  (current_date ++ ": Added " ++ str_of_nat (length new_image_fnames)
     ++ " images (" ++ String.concat " " new_image_fnames ++ ")"
     ++ String (ascii_of_nat 10) EmptyString)%string.

(** The merge of lines 96-98 and 108. *)
Definition merge (db : dataset) (new_image_fnames : list string)
    (new_stage_preds new_locations_preds : list tensor_row * list Q)
  : dataset :=
  {| database_image_filenames :=
       np.append (database_image_filenames db) new_image_fnames;
     database_image_stages :=
       torch.cat (database_image_stages db) (fst new_stage_preds);
     database_image_locations :=
       torch.cat (database_image_locations db) (fst new_locations_preds) |}.

(** Lines 74-80: the databunch over the new images, with its batch size. *)
Definition make_databunch (home : string) (new_image_fnames : list string)
  : databunch :=
  {| path := home;
     items := new_image_fnames;
     bs := Nat.min 64 (length new_image_fnames) |}.

(** Lines 71-121. *)
Definition begin_update (env : environment) (image_home_dir : option string)
    (db : dataset) (new_image_fnames : list string) : M unit :=
  if 0 <? length new_image_fnames then
    home <- load_name "image_home_dir" image_home_dir ;;
    let new_image_data := make_databunch home new_image_fnames in
    print "Calculating new predictions" ;;;
    emit (LoadLearner stage_model_file) ;;;
    emit (LoadLearner locations_model_file) ;;;
    emit (GetPreds stage_model_file) ;;;
    let new_stage_preds := stage_get_preds env new_image_data in
    emit (GetPreds locations_model_file) ;;;
    let new_locations_preds := locations_get_preds env new_image_data in
    let updated_database_image_information :=
      merge db new_image_fnames new_stage_preds new_locations_preds in
    assert (length new_image_fnames =? length (fst new_stage_preds)) ;;;
    assert (length (fst new_stage_preds)
              =? length (fst new_locations_preds)) ;;;
    save_object env updated_database_image_information ;;;
    let current_date := strftime (date_today env) in
    write_last_updated env current_date ;;;
    append_log env (log_line current_date new_image_fnames) ;;;
    print ("Updated with " ++ str_of_nat (length new_image_fnames)
             ++ " images")%string
  else
    print "Data already up to date".

(** The whole of [update-data.py]. *)
Definition update_data (env : environment) : M unit :=
  globals <- find_new_images env ;;
  let '(image_home_dir, db, new_image_fnames) := globals in
  begin_update env image_home_dir db new_image_fnames.

(** ** The run of the specification's scenario *)

Definition scenario_home : string := "/home/geisha/images/".

Definition scenario_rows : list metadata_record :=
  [ {| fname := "b.jpg"; stage := "10"; locations := "limb" |};
    {| fname := "c.jpg"; stage := "12"; locations := "heart" |};
    {| fname := "d.jpg"; stage := "14"; locations := "eye" |} ].

Definition scenario_row (k : nat) : tensor_row := [inject_Z (Z.of_nat k); 1%Q].

Definition scenario_env : environment :=
  {| sys_argv := ["src/update-data.py"; scenario_home];
     urlretrieve := fun _ => Some (Rows scenario_rows);
     os_path_exists :=
       fun p => String.eqb p "/home/geisha/images/c.jpg"
                || String.eqb p "/home/geisha/images/"
                || String.eqb p "/home/geisha/images";
     stage_get_preds :=
       fun d => (map (fun _ => scenario_row 7) (items d), []);
     locations_get_preds :=
       fun d => (map (fun _ => scenario_row 9) (items d), []);
     date_today := {| year := 2020; month := 3; day := 9 |};
     dataset_write := Completed;
     last_updated_write := Completed;
     log_write := Completed |}.

Definition scenario_dataset : dataset :=
  {| database_image_filenames := ["a.jpg"; "b.jpg"];
     database_image_stages := [scenario_row 1; scenario_row 2];
     database_image_locations := [scenario_row 3; scenario_row 4] |}.

Definition scenario_files : files :=
  {| last_updated := Some "03/01/20";
     database_image_predictions := Some scenario_dataset;
     data_updates_log := Some EmptyString;
     temporary_downloads := true;
     new_images_csv := None |}.

Definition scenario_world : world :=
  {| disk := scenario_files; trace := [] |}.

(** Variations of the scenario: another command line, another answer of the
    endpoint, another disk, other learners, another end of the dump. *)
Definition scenario_with (argv : list string) (payload : csv_payload)
    (on_disk : string -> bool) (stage_rows : databunch -> list tensor_row)
    (dump : write_outcome) : environment :=
  {| sys_argv := argv;
     urlretrieve := fun _ => Some payload;
     os_path_exists := on_disk;
     stage_get_preds := fun d => (stage_rows d, []);
     locations_get_preds := locations_get_preds scenario_env;
     date_today := date_today scenario_env;
     dataset_write := dump;
     last_updated_write := Completed;
     log_write := Completed |}.

(** The documented invocation, [python src/update-data.py /home/geisha/images],
    on the disk of the scenario. *)
Definition documented_home : string := "/home/geisha/images".

Definition documented_env : environment :=
  scenario_with ["src/update-data.py"; documented_home] (Rows scenario_rows)
    (os_path_exists scenario_env)
    (fun d => fst (stage_get_preds scenario_env d)) Completed.

(** The scenario started with one more positional argument. *)
Definition extra_argument_env : environment :=
  scenario_with ["src/update-data.py"; scenario_home; "--verbose"]
    (Rows scenario_rows) (os_path_exists scenario_env)
    (fun d => fst (stage_get_preds scenario_env d)) Completed.

(** The endpoint has no image newer than the checkpoint. *)
Definition quiet_env : environment :=
  scenario_with ["src/update-data.py"; scenario_home] (Rows [])
    (os_path_exists scenario_env)
    (fun d => fst (stage_get_preds scenario_env d)) Completed.

(** The files one run after the scenario: the scratch download of that run
    is still in place. *)
Definition later_files : files :=
  set_new_images_csv (Some (Rows scenario_rows)) scenario_files.

Definition later_world : world := {| disk := later_files; trace := [] |}.

(** Every image of the metadata is on the disk, and the metadata lists them
    out of order and one of them twice. *)
Definition shuffled_rows : list metadata_record :=
  [ {| fname := "d.jpg"; stage := "14"; locations := "eye" |};
    {| fname := "c.jpg"; stage := "12"; locations := "heart" |};
    {| fname := "d.jpg"; stage := "14"; locations := "eye" |};
    {| fname := "b.jpg"; stage := "10"; locations := "limb" |} ].

Definition shuffled_env : environment :=
  scenario_with ["src/update-data.py"; scenario_home] (Rows shuffled_rows)
    (String.prefix scenario_home)
    (fun d => fst (stage_get_preds scenario_env d)) Completed.

(** The stage learner returns no prediction at all. *)
Definition silent_stage_env : environment :=
  scenario_with ["src/update-data.py"; scenario_home] (Rows scenario_rows)
    (os_path_exists scenario_env) (fun _ => []) Completed.

(** The dump of the dataset fails once the file has been opened. *)
Definition failed_dump_env : environment :=
  scenario_with ["src/update-data.py"; scenario_home] (Rows scenario_rows)
    (os_path_exists scenario_env)
    (fun d => fst (stage_get_preds scenario_env d)) FailedAfterOpen.

(** ** The filter as the specification words it

    "has a corresponding file present under the given directory": the file
     named [name] in the directory [directory], that is the path
     [os.path.join(directory, name)]. *)

Definition ends_with_sep (s : string) : bool :=
  match rev (list_ascii_of_string s) with
  | c :: _ => Ascii.eqb c "/"
  | [] => false
  end.

Definition os_path_join (a b : string) : string :=
  if String.prefix "/" b then b
  else if String.eqb a EmptyString || ends_with_sep a then (a ++ b)%string
  else (a ++ "/" ++ b)%string.

Definition present_under (env : environment) (directory name : string) : bool :=
  os_path_exists env (os_path_join directory name).

(** The test the loop of lines 62-66 applies to one name. *)
Definition to_remove (env : environment) (home : string) (saved : list string)
    (name : string) : bool :=
  np.contains saved name || negb (os_path_exists env (home ++ name)%string).

(** ** Vocabulary of the statements *)

(** The three persisted files of the data model: checkpoint, dataset, log. *)
Definition persisted (f : files)
  : option string * option dataset * option string :=
  (last_updated f, database_image_predictions f, data_updates_log f).

(** Loading a learner, running one, or opening any file for writing. *)
Definition is_inference_or_write (e : event) : bool :=
  match e with
  | LoadLearner _ | GetPreds _ | OpenForWriting _ => true
  | Stdout _ | UrlRetrieve _ => false
  end.

Definition is_write (e : event) : bool :=
  match e with
  | OpenForWriting _ => true
  | _ => false
  end.

(** The character of the decimal digit [k], for [k] below ten. *)
Definition decimal_digit (k : nat) : ascii := ascii_of_nat (48 + k).

(** All rows of a tensor have the width [c]. *)
Definition uniform_width (c : nat) (t : list tensor_row) : Prop :=
  Forall (fun row => length row = c) t.

(** What lines 31-34 leave in [image_home_dir]. *)
Definition image_home_dir_of (argv : list string) : option string :=
  if length argv =? 2 then Some (nth 1 argv EmptyString) else None.

(** A request sent to the metadata endpoint. *)
Definition is_url_request (e : event) : bool :=
  match e with
  | UrlRetrieve _ => true
  | _ => false
  end.

(** The three persisted files in the order lines 110, 114 and 116 open them. *)
Definition write_order : list event :=
  [OpenForWriting dataset_file; OpenForWriting last_updated_file;
   OpenForWriting log_file].

(** ** More runs around the scenario *)

(** The script started without its argument. *)
Definition no_argument_env : environment :=
  scenario_with ["src/update-data.py"] (Rows scenario_rows)
    (os_path_exists scenario_env)
    (fun d => fst (stage_get_preds scenario_env d)) Completed.

(** The endpoint cannot be reached. *)
Definition offline_env : environment :=
  {| sys_argv := sys_argv scenario_env;
     urlretrieve := fun _ => None;
     os_path_exists := os_path_exists scenario_env;
     stage_get_preds := stage_get_preds scenario_env;
     locations_get_preds := locations_get_preds scenario_env;
     date_today := date_today scenario_env;
     dataset_write := Completed;
     last_updated_write := Completed;
     log_write := Completed |}.


Definition no_dataset_world : world :=
  {| disk := set_database None scenario_files; trace := [] |}.

(** ** Tactics that run the script *)

Ltac unfold_script :=
  unfold find_new_images, grab_image_home_dir, mkdir_temporary_downloads,
    read_last_updated, download_metadata, read_csv, load_database,
    save_object, write_last_updated, append_log, assert, load_name,
    print, emit, get_files, put_files, bind, ret, raise in *.

Ltac run_update :=
  unfold begin_update;
  try match goal with
    | |- context [0 <? length (?n :: ?r)] =>
        change (0 <? length (n :: r)) with true
    end;
  unfold_script;
  cbn -[strftime log_line str_of_nat String.append merge Nat.eqb length make_databunch];
  repeat match goal with
    | |- context [Nat.eqb ?a ?b] => destruct (Nat.eqb_spec a b)
    | |- context [dataset_write ?e] => destruct (dataset_write e) eqn:?
    | |- context [last_updated_write ?e] => destruct (last_updated_write e) eqn:?
    | |- context [log_write ?e] => destruct (log_write e) eqn:?
    end;
  cbn -[strftime log_line str_of_nat String.append merge Nat.eqb length make_databunch].

(** ** Facts on the string order and on [np.unique] *)

Lemma str_lt_trans (a b c : string) : str_lt a b -> str_lt b c -> str_lt a c.
Proof.
  unfold str_lt. intros Hab Hbc.
  apply String_as_OT.cmp_lt. apply String_as_OT.cmp_lt in Hab, Hbc.
  exact (String_as_OT.lt_trans _ _ _ Hab Hbc).
Qed.

Lemma str_lt_irrefl (a : string) : ~ str_lt a a.
Proof.
  unfold str_lt. intros H.
  assert (E : String.compare a a = Eq) by (apply String_as_OT.cmp_eq; reflexivity).
  congruence.
Qed.

Lemma leb_neq_lt (a b : string) : String.leb a b = true -> a <> b -> str_lt a b.
Proof.
  unfold String.leb, str_lt. intros Hle Hne.
  destruct (String.compare a b) eqn:E; try reflexivity; try discriminate.
  apply String_as_OT.cmp_eq in E. contradiction.
Qed.

Lemma str_leb_trans (a b c : string) :
  String.leb a b = true -> String.leb b c = true -> String.leb a c = true.
Proof.
  intros Hab Hbc.
  destruct (String.eqb_spec a b) as [-> | Nab]; [exact Hbc |].
  destruct (String.eqb_spec b c) as [<- | Nbc]; [exact Hab |].
  pose proof (str_lt_trans _ _ _ (leb_neq_lt _ _ Hab Nab) (leb_neq_lt _ _ Hbc Nbc)) as H.
  unfold str_lt in H. unfold String.leb. now rewrite H.
Qed.

Lemma sort_strongly_sorted (l : list string) :
  StronglySorted (fun x y => String.leb x y = true) (StrSort.sort l).
Proof.
  apply Sorted_StronglySorted.
  - intros a b c. apply str_leb_trans.
  - apply Sorted_LocallySorted_iff. exact (StrSort.LocallySorted_sort l).
Qed.

Lemma In_keep_changes (prev x : string) (ar : list string) :
  In x (np.keep_changes prev ar) -> In x ar.
Proof.
  revert prev. induction ar as [| y rest IH]; simpl; intros prev H; [assumption |].
  destruct (String.eqb_spec y prev).
  - right. eauto.
  - destruct H as [-> | H]; [now left | right; eauto].
Qed.

Lemma keep_changes_complete (prev x : string) (ar : list string) :
  In x ar -> x = prev \/ In x (np.keep_changes prev ar).
Proof.
  revert prev. induction ar as [| y rest IH]; simpl; intros prev H; [contradiction |].
  destruct H as [-> | H].
  - destruct (String.eqb_spec x prev); [now left | right; now left].
  - destruct (IH y H) as [-> | Hin].
    + destruct (String.eqb_spec y prev); [now left | right; now left].
    + destruct (String.eqb_spec y prev); [right; assumption | right; now right].
Qed.

Lemma keep_changes_sorted (prev : string) (ar : list string) :
  StronglySorted (fun x y => String.leb x y = true) (prev :: ar) ->
  StronglySorted str_lt (prev :: np.keep_changes prev ar).
Proof.
  revert prev. induction ar as [| y rest IH]; simpl; intros prev H.
  - repeat constructor.
  - inversion H as [| ? ? Htail Hall]; subst.
    inversion Hall as [| ? ? Hpy Hprest]; subst.
    destruct (String.eqb_spec y prev) as [-> | Hne].
    + apply IH. exact Htail.
    + specialize (IH y Htail).
      inversion IH as [| ? ? IHs IHall]; subst.
      constructor; [exact IH |].
      assert (Hlt : str_lt prev y) by (apply leb_neq_lt; [assumption | congruence]).
      constructor; [exact Hlt |].
      eapply Forall_impl; [| exact IHall].
      intros z Hz. exact (str_lt_trans _ _ _ Hlt Hz).
Qed.

Lemma unique_sorted (ar : list string) : StronglySorted str_lt (np.unique ar).
Proof.
  unfold np.unique. pose proof (sort_strongly_sorted ar) as H.
  destruct (StrSort.sort ar) as [| x rest]; [constructor |].
  now apply keep_changes_sorted.
Qed.

Lemma In_unique (ar : list string) (x : string) : In x (np.unique ar) <-> In x ar.
Proof.
  unfold np.unique.
  pose proof (StrSort.Permuted_sort ar) as P.
  assert (Q : In x (StrSort.sort ar) <-> In x ar).
  { split; intros H.
    - eapply Permutation_in; [apply Permutation_sym; exact P | exact H].
    - eapply Permutation_in; [exact P | exact H]. }
  rewrite <- Q. destruct (StrSort.sort ar) as [| y rest]; [reflexivity |].
  split.
  - intros [-> | H]; [now left | right; eapply In_keep_changes; eassumption].
  - intros [-> | H]; [now left |].
    destruct (keep_changes_complete y x rest H) as [-> | H']; [now left | now right].
Qed.

Lemma contains_In (ar : list string) (x : string) : np.contains ar x = true <-> In x ar.
Proof.
  unfold np.contains. rewrite existsb_exists. split.
  - intros [y [Hy E]]. apply String.eqb_eq in E. now subst.
  - intros H. exists x. split; [assumption | apply String.eqb_refl].
Qed.

Lemma strictly_sorted_NoDup (l : list string) : StronglySorted str_lt l -> NoDup l.
Proof.
  induction 1 as [| a l Hs IH Hall]; constructor; [| assumption].
  intros Hin. rewrite Forall_forall in Hall.
  exact (str_lt_irrefl a (Hall a Hin)).
Qed.

Lemma strictly_sorted_filter (p : string -> bool) (l : list string) :
  StronglySorted str_lt l -> StronglySorted str_lt (filter p l).
Proof.
  induction 1 as [| a l Hs IH Hall]; simpl; [constructor |].
  destruct (p a); [| assumption].
  constructor; [assumption |].
  rewrite Forall_forall in *. intros x Hx. apply Hall.
  apply filter_In in Hx. tauto.
Qed.

Lemma strictly_sorted_ext (l1 l2 : list string) :
  StronglySorted str_lt l1 -> StronglySorted str_lt l2 ->
  (forall x, In x l1 <-> In x l2) -> l1 = l2.
Proof.
  intros H1. revert l2.
  induction H1 as [| a l1 Hs1 IH Hall1]; intros l2 H2 Hext.
  - destruct l2 as [| b l2]; [reflexivity |].
    exfalso. apply (proj2 (Hext b)). now left.
  - destruct H2 as [| b l2 Hs2 Hall2].
    + exfalso. apply (proj1 (Hext a)). now left.
    + rewrite Forall_forall in Hall1, Hall2.
      assert (E : a = b).
      { destruct (proj1 (Hext a) (or_introl eq_refl)) as [E | Hin]; [now symmetry |].
        destruct (proj2 (Hext b) (or_introl eq_refl)) as [E | Hin']; [assumption |].
        exfalso. apply (str_lt_irrefl a).
        exact (str_lt_trans _ _ _ (Hall1 b Hin') (Hall2 a Hin)). }
      subst b. f_equal. apply IH; [assumption |].
      intros x. split; intros Hx.
      * destruct (proj1 (Hext x) (or_intror Hx)) as [E | Hin]; [| assumption].
        subst x. exfalso. exact (str_lt_irrefl a (Hall1 a Hx)).
      * destruct (proj2 (Hext x) (or_intror Hx)) as [E | Hin]; [| assumption].
        subst x. exfalso. exact (str_lt_irrefl a (Hall2 a Hx)).
Qed.

Lemma setdiff1d_sorted (ar1 ar2 : list string) :
  StronglySorted str_lt (np.setdiff1d ar1 ar2).
Proof. unfold np.setdiff1d. apply strictly_sorted_filter, unique_sorted. Qed.

Lemma In_setdiff1d (ar1 ar2 : list string) (x : string) :
  In x (np.setdiff1d ar1 ar2) <-> In x ar1 /\ ~ In x ar2.
Proof.
  unfold np.setdiff1d. rewrite filter_In, In_unique, negb_true_iff.
  pose proof (contains_In (np.unique ar2) x) as C. rewrite In_unique in C.
  split; intros [H1 H2]; split; try assumption.
  - intros Hin. apply C in Hin. congruence.
  - destruct (np.contains (np.unique ar2) x); [| reflexivity].
    exfalso. apply H2, C. reflexivity.
Qed.

(** ** The filter of lines 61-68 *)

Lemma mark_images_to_remove_bound env home saved fnames acc w :
  mark_images_to_remove env (Some home) saved fnames acc w
  = (Ok (acc ++ filter (to_remove env home saved) fnames), w).
Proof.
  revert acc. induction fnames as [| name rest IH]; intros acc; simpl.
  - now rewrite app_nil_r.
  - unfold bind, load_name, ret. rewrite IH. unfold to_remove, np.append.
    destruct (np.contains saved name || negb (os_path_exists env (home ++ name)%string)).
    + now rewrite <- app_assoc.
    + reflexivity.
Qed.

Lemma mark_images_to_remove_unbound env saved name rest acc w :
  mark_images_to_remove env None saved (name :: rest) acc w
  = (Raise (NameError "image_home_dir"), w).
Proof. reflexivity. Qed.

Lemma remove_saved_or_missing_bound env home saved fnames w :
  remove_saved_or_missing env (Some home) saved fnames w
  = (Ok (np.setdiff1d fnames (filter (to_remove env home saved) fnames)), w).
Proof.
  unfold remove_saved_or_missing, bind.
  now rewrite mark_images_to_remove_bound.
Qed.

Lemma remove_saved_or_missing_unbound env saved fnames w :
  remove_saved_or_missing env None saved fnames w
  = (match fnames with
     | [] => Ok []
     | _ :: _ => Raise (NameError "image_home_dir")
     end, w).
Proof. destruct fnames; reflexivity. Qed.

Lemma to_remove_false env home saved f :
  to_remove env home saved f = false
  <-> ~ In f saved /\ os_path_exists env (home ++ f)%string = true.
Proof.
  unfold to_remove. rewrite orb_false_iff, negb_false_iff.
  rewrite <- (contains_In saved f).
  destruct (np.contains saved f); intuition congruence.
Qed.

Lemma In_kept env home saved fnames f :
  In f (np.setdiff1d fnames (filter (to_remove env home saved) fnames))
  <-> In f fnames /\ ~ In f saved /\ os_path_exists env (home ++ f)%string = true.
Proof.
  rewrite In_setdiff1d, filter_In, <- to_remove_false.
  destruct (to_remove env home saved f); intuition congruence.
Qed.

(** What a successful filter returns, whichever way [image_home_dir] was
    left by lines 31-34. *)
Lemma remove_saved_or_missing_ok env h saved fnames w kept w' :
  remove_saved_or_missing env h saved fnames w = (Ok kept, w') ->
  w' = w /\ StronglySorted str_lt kept /\
  forall f, In f kept -> In f fnames /\ ~ In f saved.
Proof.
  destruct h as [home |].
  - rewrite remove_saved_or_missing_bound. intros E. inversion E; subst.
    split; [reflexivity |]. split; [apply setdiff1d_sorted |].
    intros f Hf. apply In_kept in Hf. tauto.
  - rewrite remove_saved_or_missing_unbound. destruct fnames; intros E; inversion E; subst.
    split; [reflexivity |]. split; [constructor |]. intros f [].
Qed.

Lemma remove_saved_or_missing_world env h saved fnames w r w' :
  remove_saved_or_missing env h saved fnames w = (r, w') -> w' = w.
Proof.
  destruct h as [home |].
  - rewrite remove_saved_or_missing_bound. now inversion 1.
  - rewrite remove_saved_or_missing_unbound. now inversion 1.
Qed.

Lemma setdiff1d_ext (a a' b b' : list string) :
  (forall x, In x a <-> In x a') -> (forall x, In x b <-> In x b') ->
  np.setdiff1d a b = np.setdiff1d a' b'.
Proof.
  intros Ha Hb. apply strictly_sorted_ext; try apply setdiff1d_sorted.
  intros x. rewrite !In_setdiff1d, Ha, Hb. reflexivity.
Qed.

(** ** Lines 31-68 as a whole *)

Lemma find_new_images_inv env w r w1 :
  find_new_images env w = (r, w1) ->
  persisted (disk w1) = persisted (disk w) /\
  (exists evs, trace w1 = trace w ++ evs
               /\ Forall (fun e => is_inference_or_write e = false) evs) /\
  (forall h db new, r = Ok (h, db, new) ->
     database_image_predictions (disk w) = Some db /\
     h = image_home_dir_of (sys_argv env) /\
     exists since rows,
       last_updated (disk w) = Some since /\
       urlretrieve env (new_images_metadata_url since) = Some (Rows rows) /\
       remove_saved_or_missing env h (database_image_filenames db)
         (map fname rows) w1 = (Ok new, w1)).
Proof.
  unfold find_new_images. unfold bind at 1. unfold grab_image_home_dir.
  destruct (length (sys_argv env) =? 1) eqn:A1.
  { unfold raise. intros E; inversion E; subst. split; [reflexivity |]. split.
    - exists []. now rewrite app_nil_r.
    - discriminate. }
  remember (image_home_dir_of (sys_argv env)) as h0 eqn:Eh0.
  unfold image_home_dir_of in Eh0.
  assert (G : (if length (sys_argv env) =? 2 then ret (Some (nth 1 (sys_argv env) EmptyString)) else ret None) w = (Ok h0, w)).
  { subst h0. destruct (length (sys_argv env) =? 2); reflexivity. }
  rewrite G. clear G.
  clear Eh0 A1. unfold_script. cbn -[new_images_metadata_url remove_saved_or_missing].
  destruct (last_updated (disk w)) as [since |] eqn:L.
  2:{ intros E; inversion E; subst. split; [reflexivity |]. split.
      - exists []. now rewrite app_nil_r.
      - discriminate. }
  cbn -[new_images_metadata_url remove_saved_or_missing].
  destruct (urlretrieve env (new_images_metadata_url since)) as [payload |] eqn:U.
  2:{ intros E; inversion E; subst. split; [reflexivity |]. split.
      - eexists. split; [cbn; rewrite <- app_assoc; reflexivity |]. repeat constructor.
      - discriminate. }
  cbn -[new_images_metadata_url remove_saved_or_missing].
  destruct payload as [| rows |].
  { intros E; inversion E; subst. split; [reflexivity |]. split.
    - eexists. split; [cbn; rewrite <- app_assoc; reflexivity |]. repeat constructor.
    - discriminate. }
  2:{ cbn -[new_images_metadata_url remove_saved_or_missing].
      destruct (database_image_predictions (disk w)) as [db |] eqn:D;
        [destruct h0 as [home |] |];
        (intros E; inversion E; subst; split; [reflexivity |]; split;
         [ eexists; split; [cbn; rewrite <- app_assoc; reflexivity |];
           repeat constructor
         | discriminate ]). }
  cbn -[new_images_metadata_url remove_saved_or_missing].
  destruct (database_image_predictions (disk w)) as [db |] eqn:D.
  2:{ intros E; inversion E; subst. split; [reflexivity |]. split.
      - eexists. split; [cbn; rewrite <- app_assoc; reflexivity |]. repeat constructor.
      - discriminate. }
  match goal with
  | |- context [remove_saved_or_missing ?e ?h ?s ?f ?w0] =>
      destruct (remove_saved_or_missing e h s f w0) as [r0 w0'] eqn:R
  end.
  pose proof (remove_saved_or_missing_world _ _ _ _ _ _ _ R) as Ew. subst w0'.
  destruct r0 as [kept | ex]; intros E; inversion E; subst.
  - split; [reflexivity |]. split.
    + eexists. split; [cbn; rewrite <- app_assoc; reflexivity |]. repeat constructor.
    + intros h db' new Hok. inversion Hok; subst.
      split; [reflexivity |]. split; [reflexivity |].
      exists since, rows. repeat split; try assumption.
  - split; [reflexivity |]. split.
    + eexists. split; [cbn; rewrite <- app_assoc; reflexivity |]. repeat constructor.
    + discriminate.
Qed.

(** ** Lines 71-121 *)

Lemma begin_update_empty env h db w :
  begin_update env h db [] w
  = (Ok tt, {| disk := disk w;
               trace := trace w ++ [Stdout "Data already up to date"] |}).
Proof. reflexivity. Qed.

Lemma begin_update_unbound env db name rest w :
  begin_update env None db (name :: rest) w
  = (Raise (NameError "image_home_dir"), w).
Proof. reflexivity. Qed.

Lemma begin_update_ok env home db name rest w w' :
  let new := name :: rest in
  let d := make_databunch home new in
  begin_update env (Some home) db new w = (Ok tt, w') ->
  length new = length (fst (stage_get_preds env d)) /\
  length (fst (stage_get_preds env d)) = length (fst (locations_get_preds env d)) /\
  persisted (disk w')
  = (Some (strftime (date_today env)),
     Some (merge db new (stage_get_preds env d) (locations_get_preds env d)),
     Some (file_text (data_updates_log (disk w))
             ++ log_line (strftime (date_today env)) new)%string).
Proof.
  intros new d. subst new d.
  run_update; intros E; inversion E; subst; auto.
Qed.

(** A run of lines 71-121 leaves the dataset file as it was, leaves it
    emptied by a failed dump, or holds the merged dataset. *)
Lemma begin_update_dataset env h db new w r w' :
  begin_update env h db new w = (r, w') ->
  database_image_predictions (disk w') = database_image_predictions (disk w)
  \/ database_image_predictions (disk w') = None
  \/ exists home,
       h = Some home /\ new <> [] /\ dataset_write env = Completed /\
       database_image_predictions (disk w')
       = Some (merge db new
                 (stage_get_preds env (make_databunch home new))
                 (locations_get_preds env (make_databunch home new))).
Proof.
  destruct new as [| name rest].
  { rewrite begin_update_empty. intros E; inversion E; subst. now left. }
  destruct h as [home |].
  2:{ rewrite begin_update_unbound. intros E; inversion E; subst. now left. }
  run_update; intros E; inversion E; subst; cbn; auto;
    right; right; exists home; repeat split; auto; discriminate.
Qed.



Lemma begin_update_mismatch env home db name rest w :
  let new := name :: rest in
  let d := make_databunch home new in
  length (fst (stage_get_preds env d)) <> length new
  \/ length (fst (locations_get_preds env d)) <> length new ->
  exists evs,
    begin_update env (Some home) db new w
    = (Raise AssertionError, {| disk := disk w; trace := trace w ++ evs |})
    /\ Forall (fun e => is_write e = false) evs.
Proof.
  intros new d. subst new d. intros H.
  run_update; try (exfalso; destruct H; congruence);
    (eexists; split; [rewrite <- !app_assoc; reflexivity | repeat constructor]).
Qed.

(** ** The whole run *)

Lemma update_data_continues env w h db new w1 :
  find_new_images env w = (Ok (h, db, new), w1) ->
  update_data env w = begin_update env h db new w1.
Proof. intros E. unfold update_data, bind. now rewrite E. Qed.

Lemma update_data_stops env w e w1 :
  find_new_images env w = (Raise e, w1) ->
  update_data env w = (Raise e, w1).
Proof. intros E. unfold update_data, bind. now rewrite E. Qed.

Lemma persisted_fields (f g : files) :
  persisted f = persisted g <->
  last_updated f = last_updated g
  /\ database_image_predictions f = database_image_predictions g
  /\ data_updates_log f = data_updates_log g.
Proof.
  unfold persisted. split.
  - intros E. inversion E. auto.
  - intros [-> [-> ->]]. reflexivity.
Qed.

(** A non-empty result of the filter means [image_home_dir] was bound. *)
Lemma nonempty_filter_bound env h saved fnames w name rest w' :
  remove_saved_or_missing env h saved fnames w = (Ok (name :: rest), w') ->
  exists home, h = Some home.
Proof.
  destruct h as [home |]; [eauto |].
  rewrite remove_saved_or_missing_unbound. destruct fnames; discriminate.
Qed.

(** C1: after a successful non-empty update run that started from a dataset
    whose three sequences have one common length, the three persisted
    sequences again have one common length, and it is the length before the
    run plus the number of images the filter accepted. *)
Theorem update_keeps_lengths_aligned env w h db new w1 w' :
  find_new_images env w = (Ok (h, db, new), w1) ->
  new <> [] ->
  update_data env w = (Ok tt, w') ->
  length (database_image_filenames db) = length (database_image_stages db) ->
  length (database_image_stages db) = length (database_image_locations db) ->
  database_image_predictions (disk w) = Some db /\
  exists db',
    database_image_predictions (disk w') = Some db' /\
    length (database_image_filenames db') = length (database_image_stages db') /\
    length (database_image_stages db') = length (database_image_locations db') /\
    length (database_image_filenames db')
    = length (database_image_filenames db) + length new.
Proof.
  intros F Hne U L1 L2.
  destruct (find_new_images_inv _ _ _ _ F) as [_ [_ Hok]].
  destruct (Hok _ _ _ eq_refl) as [Hdb [_ [since [rows [_ [_ R]]]]]].
  split; [exact Hdb |].
  rewrite (update_data_continues _ _ _ _ _ _ F) in U.
  destruct new as [| name rest]; [contradiction |].
  destruct (nonempty_filter_bound _ _ _ _ _ _ _ _ R) as [home ->].
  destruct (begin_update_ok _ _ _ _ _ _ _ U) as [N1 [N2 P]].
  unfold persisted in P. inversion P as [[Pc Pd Pl]].
  eexists. split; [exact Pd |].
  unfold merge, np.append, torch.cat. cbn [database_image_filenames
    database_image_stages database_image_locations].
  rewrite !length_app. rewrite <- N2, <- N1. lia.
Qed.

(** The dataset file after any run: as before, emptied by a failed dump, or
    the old filenames followed by names the filter accepted. *)
Lemma update_data_dataset env w r w' db :
  update_data env w = (r, w') ->
  database_image_predictions (disk w) = Some db ->
  database_image_predictions (disk w') = Some db
  \/ database_image_predictions (disk w') = None
  \/ exists db' new,
       database_image_predictions (disk w') = Some db' /\
       database_image_filenames db' = database_image_filenames db ++ new /\
       StronglySorted str_lt new /\
       forall f, In f new -> ~ In f (database_image_filenames db).
Proof.
  intros U Hdb.
  destruct (find_new_images env w) as [r1 w1] eqn:F.
  destruct (find_new_images_inv _ _ _ _ F) as [P [_ Hok]].
  apply persisted_fields in P. destruct P as [_ [Pd _]].
  destruct r1 as [[[h db0] new] | e].
  - destruct (Hok _ _ _ eq_refl) as [Hdb0 [_ [since [rows [_ [_ R]]]]]].
    assert (db0 = db) by congruence. subst db0.
    rewrite (update_data_continues _ _ _ _ _ _ F) in U.
    destruct (begin_update_dataset _ _ _ _ _ _ _ U) as [E | [E | [home [_ [_ [_ E]]]]]].
    + left. congruence.
    + right. now left.
    + right. right.
      destruct (remove_saved_or_missing_ok _ _ _ _ _ _ _ R) as [_ [S N]].
      eexists. exists new. split; [exact E |]. split; [reflexivity |].
      split; [exact S |]. intros f Hf. apply (N f Hf).
  - rewrite (update_data_stops _ _ _ _ F) in U. inversion U; subst.
    left. congruence.
Qed.

(** C2: a filename that was in the persisted dataset before a run is in the
    persisted dataset exactly once after it, whatever the fetched metadata
    holds; the filenames stay free of duplicates. *)
Theorem saved_filename_stays_unique env w r w' db db' f :
  update_data env w = (r, w') ->
  database_image_predictions (disk w) = Some db ->
  database_image_predictions (disk w') = Some db' ->
  NoDup (database_image_filenames db) ->
  In f (database_image_filenames db) ->
  count_occ string_dec (database_image_filenames db') f = 1
  /\ NoDup (database_image_filenames db').
Proof.
  intros U Hdb Hdb' Hnd Hin.
  assert (ND : NoDup (database_image_filenames db')
               /\ In f (database_image_filenames db')).
  { destruct (update_data_dataset _ _ _ _ _ U Hdb)
      as [E | [E | [db2 [new [E [Efn [S N]]]]]]].
    - assert (db' = db) by congruence. subst. auto.
    - congruence.
    - assert (db2 = db') by congruence. subst db2. rewrite Efn. split.
      + apply NoDup_app; [assumption | now apply strictly_sorted_NoDup |].
        intros x Hx Hx'. exact (N x Hx' Hx).
      + apply in_or_app. now left. }
  destruct ND as [ND Hin']. split; [| exact ND].
  now apply NoDup_count_occ'.
Qed.

(** C4: when the filter leaves no name, the run ends normally; the dataset,
    the checkpoint and the log are what they were, and among the events of
    the run there is no learner loaded, no inference and no file opened for
    writing, only the message that the data is up to date. *)
Theorem empty_update_is_a_no_op env w h db w1 :
  find_new_images env w = (Ok (h, db, []), w1) ->
  exists w' evs,
    update_data env w = (Ok tt, w') /\
    persisted (disk w') = persisted (disk w) /\
    trace w' = trace w ++ evs /\
    Forall (fun e => is_inference_or_write e = false) evs /\
    In (Stdout "Data already up to date") evs.
Proof.
  intros F.
  destruct (find_new_images_inv _ _ _ _ F) as [P [[evs [T Q]] _]].
  rewrite (update_data_continues _ _ _ _ _ _ F), begin_update_empty.
  eexists. exists (evs ++ [Stdout "Data already up to date"]).
  split; [reflexivity |]. cbn [disk trace]. split; [exact P |].
  split; [rewrite T; now rewrite app_assoc |].
  split.
  - apply Forall_app. split; [exact Q | repeat constructor].
  - apply in_or_app. right. now left.
Qed.








(** C6: in a non-empty update run, when the stage learner or the locations
    learner returns a number of predictions that is not the number of
    filtered filenames, the run raises [AssertionError]; the dataset, the
    checkpoint and the log are what they were and no file was opened for
    writing after the filter. *)
Theorem prediction_count_mismatch_is_fatal env w home db new w1 :
  find_new_images env w = (Ok (Some home, db, new), w1) ->
  new <> [] ->
  length (fst (stage_get_preds env (make_databunch home new))) <> length new
  \/ length (fst (locations_get_preds env (make_databunch home new)))
     <> length new ->
  exists w' evs,
    update_data env w = (Raise AssertionError, w') /\
    persisted (disk w') = persisted (disk w) /\
    trace w' = trace w ++ evs /\
    Forall (fun e => is_write e = false) evs.
Proof.
  intros F Hne Hmis.
  destruct (find_new_images_inv _ _ _ _ F) as [P [[evs1 [T Q]] _]].
  rewrite (update_data_continues _ _ _ _ _ _ F).
  destruct new as [| name rest]; [contradiction |].
  destruct (begin_update_mismatch env home db name rest w1 Hmis) as [evs2 [B Q2]].
  rewrite B. eexists. exists (evs1 ++ evs2). split; [reflexivity |].
  cbn [disk trace]. split; [exact P |].
  split; [rewrite T; now rewrite app_assoc |].
  apply Forall_app. split; [| exact Q2].
  eapply Forall_impl; [| exact Q].
  intros e He. destruct e; simpl in *; congruence.
Qed.

Lemma str_of_digit (k : nat) :
  k < 10 -> str_of_nat k = String (decimal_digit k) EmptyString.
Proof.
  intros H. do 10 (destruct k as [| k]; [reflexivity |]). lia.
Qed.

Lemma two_digits_characters (n : nat) :
  two_digits n
  = String (decimal_digit (n mod 100 / 10))
      (String (decimal_digit (n mod 10)) EmptyString).
Proof.
  unfold two_digits. rewrite !str_of_digit; [reflexivity | |].
  - apply Nat.mod_upper_bound. lia.
  - apply Nat.Div0.div_lt_upper_bound.
    pose proof (Nat.mod_upper_bound n 100). lia.
Qed.

(** C7: after a successful non-empty update the checkpoint file holds the
    date of the run: the two digits of its month, a slash, the two digits of
    its day, a slash, and the last two digits of its year; after a run whose
    filter left no name the checkpoint file is what it was. *)
Theorem checkpoint_after_run env w h db new w1 r w' :
  find_new_images env w = (Ok (h, db, new), w1) ->
  update_data env w = (r, w') ->
  1 <= month (date_today env) <= 12 ->
  1 <= day (date_today env) <= 31 ->
  (new <> [] -> r = Ok tt ->
   last_updated (disk w')
   = Some
       (String (decimal_digit (month (date_today env) / 10))
       (String (decimal_digit (month (date_today env) mod 10))
       (String "/"
       (String (decimal_digit (day (date_today env) / 10))
       (String (decimal_digit (day (date_today env) mod 10))
       (String "/"
       (String (decimal_digit (year (date_today env) mod 100 / 10))
       (String (decimal_digit (year (date_today env) mod 10))
          EmptyString)))))))))
  /\
  (new = [] -> r = Ok tt /\ last_updated (disk w') = last_updated (disk w)).
Proof.
  intros F U Hm Hd.
  destruct (find_new_images_inv _ _ _ _ F) as [P [_ Hok]].
  apply persisted_fields in P. destruct P as [Pc _].
  destruct (Hok _ _ _ eq_refl) as [_ [_ [since [rows [_ [_ R]]]]]].
  rewrite (update_data_continues _ _ _ _ _ _ F) in U. split.
  - intros Hne ->. destruct new as [| name rest]; [contradiction |].
    destruct (nonempty_filter_bound _ _ _ _ _ _ _ _ R) as [home ->].
    destruct (begin_update_ok _ _ _ _ _ _ _ U) as [_ [_ Pw]].
    apply (f_equal (fun t => fst (fst t))) in Pw. cbn [persisted fst] in Pw.
    rewrite Pw. unfold strftime. rewrite !two_digits_characters.
    rewrite (Nat.mod_small (month (date_today env)) 100) by lia.
    rewrite (Nat.mod_small (day (date_today env)) 100) by lia.
    reflexivity.
  - intros ->. rewrite begin_update_empty in U. inversion U; subst.
    split; [reflexivity | exact Pc].
Qed.

(** C8: with a second positional argument the name [image_home_dir] is never
    bound; as soon as the metadata holds one record, the first turn of the
    filter loop raises [NameError], where the claim has the run go on with
    the first argument. *)
Theorem extra_argument_leaves_image_home_dir_unbound env w since row rows db :
  2 < length (sys_argv env) ->
  last_updated (disk w) = Some since ->
  urlretrieve env (new_images_metadata_url since) = Some (Rows (row :: rows)) ->
  database_image_predictions (disk w) = Some db ->
  exists w',
    update_data env w = (Raise (NameError "image_home_dir"), w') /\
    persisted (disk w') = persisted (disk w).
Proof.
  intros Hargs L U D.
  destruct (find_new_images env w) as [r1 w1] eqn:F.
  pose proof F as F'.
  unfold find_new_images in F'. unfold bind at 1 in F'. unfold grab_image_home_dir in F'.
  destruct (length (sys_argv env) =? 1) eqn:A1; [apply Nat.eqb_eq in A1; lia |].
  destruct (length (sys_argv env) =? 2) eqn:A2; [apply Nat.eqb_eq in A2; lia |].
  unfold_script. cbn -[new_images_metadata_url remove_saved_or_missing] in F'.
  rewrite L in F'. cbn -[new_images_metadata_url remove_saved_or_missing] in F'.
  rewrite U in F'. cbn -[new_images_metadata_url remove_saved_or_missing] in F'.
  rewrite D in F'. rewrite remove_saved_or_missing_unbound in F'.
  cbn -[new_images_metadata_url] in F'. inversion F'; subst.
  rewrite (update_data_stops _ _ _ _ F). eexists. split; [reflexivity |].
  reflexivity.
Qed.

(** C9 (amended): when the fetched metadata holds no record and the dataset
    file loads, the run takes the "up to date" path; the checkpoint, the
    dataset and the log are what they were, and the one file written is the
    scratch download [temporary-downloads/new_images.csv]. *)
Theorem no_new_records_is_up_to_date env w since db :
  length (sys_argv env) <> 1 ->
  last_updated (disk w) = Some since ->
  urlretrieve env (new_images_metadata_url since) = Some (Rows []) ->
  database_image_predictions (disk w) = Some db ->
  update_data env w
  = (Ok tt,
     {| disk := set_new_images_csv (Some (Rows []))
                  (set_temporary_downloads true (disk w));
        trace := trace w ++ [Stdout "Checking for new images";
                             UrlRetrieve (new_images_metadata_url since);
                             Stdout "Data already up to date"] |})
  /\ persisted (set_new_images_csv (Some (Rows []))
                  (set_temporary_downloads true (disk w)))
     = persisted (disk w).
Proof.
  intros A1 L U D. split; [| reflexivity].
  apply Nat.eqb_neq in A1.
  unfold update_data, find_new_images. unfold bind at 1 2. unfold grab_image_home_dir.
  rewrite A1.
  assert (G : exists h0, (if length (sys_argv env) =? 2
                 then ret (Some (nth 1 (sys_argv env) EmptyString)) else ret None) w
              = (Ok h0, w))
    by (destruct (length (sys_argv env) =? 2); eexists; reflexivity).
  destruct G as [h0 G]. rewrite G.
  unfold_script. cbn -[new_images_metadata_url remove_saved_or_missing begin_update].
  rewrite L. cbn -[new_images_metadata_url remove_saved_or_missing begin_update].
  rewrite U. cbn -[new_images_metadata_url remove_saved_or_missing begin_update].
  rewrite D.
  assert (R : forall w0, remove_saved_or_missing env h0 (database_image_filenames db)
                (map fname []) w0 = (Ok [], w0))
    by (intros w0; destruct h0; reflexivity).
  rewrite R. rewrite begin_update_empty. cbn [disk trace].
  rewrite <- !app_assoc. reflexivity.
Qed.


(** C3: under the invocation the docstring documents,
    [python src/update-data.py /home/geisha/images], the file [c.jpg] is in
    the image directory, is fetched and is not saved yet, and still the
    filter returns nothing and the run leaves the dataset as it was: line 64
    tests the directory string immediately followed by the filename, that is
    [/home/geisha/imagesc.jpg], where the claim and the comment of line 60
    keep every new image that is on the disk. *)
Lemma filter_misses_file_under_documented_directory :
  present_under documented_env documented_home "c.jpg" = true
  /\ In "c.jpg" (map fname scenario_rows)
  /\ ~ In "c.jpg" (database_image_filenames scenario_dataset)
  /\ remove_saved_or_missing documented_env (Some documented_home)
       (database_image_filenames scenario_dataset) (map fname scenario_rows)
       scenario_world
     = (Ok [], scenario_world)
  /\ database_image_predictions
       (disk (snd (update_data documented_env scenario_world)))
     = Some scenario_dataset.
Proof.
  split; [reflexivity |].
  split; [simpl; tauto |].
  split; [simpl; intros [H | [H | []]]; discriminate |].
  split; vm_compute; reflexivity.
Qed.

(** C10: whatever the order and the repetitions in the fetched metadata, the
    list the filter returns holds each filename at most once and is in
    strictly ascending order; two fetched lists with the same filenames give
    the same list. *)
Theorem filter_output_is_sorted_and_duplicate_free
    env h saved fnames w kept w' :
  remove_saved_or_missing env h saved fnames w = (Ok kept, w') ->
  NoDup kept
  /\ StronglySorted str_lt kept
  /\ (forall f, count_occ string_dec kept f <= 1)
  /\ (forall fnames',
        (forall f, In f fnames <-> In f fnames') ->
        remove_saved_or_missing env h saved fnames' w = (Ok kept, w')).
Proof.
  intros R.
  destruct (remove_saved_or_missing_ok _ _ _ _ _ _ _ R) as [-> [S _]].
  pose proof (strictly_sorted_NoDup _ S) as ND.
  split; [exact ND |]. split; [exact S |].
  split; [now apply NoDup_count_occ |].
  intros fnames' Hsame. destruct h as [home |].
  - rewrite remove_saved_or_missing_bound in *. inversion R; subst.
    do 2 f_equal. apply setdiff1d_ext; [intros x; symmetry; apply Hsame |].
    intros x. rewrite !filter_In, Hsame. reflexivity.
  - rewrite remove_saved_or_missing_unbound in *.
    destruct fnames as [| a l]; [| discriminate].
    destruct fnames' as [| b l']; [exact R |].
    exfalso. apply (proj2 (Hsame b)). now left.
Qed.

(** C9 as stated fails: a run that fetches no record still replaces the
    scratch download of the run before it. *)
Lemma empty_metadata_run_rewrites_scratch_download :
  urlretrieve quiet_env (new_images_metadata_url "03/01/20") = Some (Rows [])
  /\ fst (update_data quiet_env later_world) = Ok tt
  /\ new_images_csv (disk later_world) = Some (Rows scenario_rows)
  /\ new_images_csv (disk (snd (update_data quiet_env later_world)))
     = Some (Rows [])
  /\ disk (snd (update_data quiet_env later_world)) <> disk later_world.
Proof.
  repeat split; try (vm_compute; reflexivity).
  vm_compute. intros H. discriminate H.
Qed.

(** ** The theorems at work on the scenario *)

Lemma update_keeps_lengths_aligned_witness :
  exists db',
    database_image_predictions
      (disk (snd (update_data scenario_env scenario_world))) = Some db' /\
    length (database_image_filenames db') = length (database_image_stages db') /\
    length (database_image_stages db') = length (database_image_locations db') /\
    length (database_image_filenames db') = 2 + 1.
Proof.
  refine (proj2 (update_keeps_lengths_aligned scenario_env scenario_world
                   (Some scenario_home) scenario_dataset ["c.jpg"]
                   (snd (find_new_images scenario_env scenario_world))
                   (snd (update_data scenario_env scenario_world))
                   _ _ _ _ _)).
  - vm_compute; reflexivity.
  - discriminate.
  - vm_compute; reflexivity.
  - reflexivity.
  - reflexivity.
Defined.

Lemma saved_filename_stays_unique_witness :
  count_occ string_dec
    (database_image_filenames
       {| database_image_filenames := ["a.jpg"; "b.jpg"; "c.jpg"];
          database_image_stages :=
            database_image_stages scenario_dataset ++ [scenario_row 7];
          database_image_locations :=
            database_image_locations scenario_dataset ++ [scenario_row 9] |})
    "b.jpg" = 1
  /\ NoDup ["a.jpg"; "b.jpg"; "c.jpg"].
Proof.
  refine (saved_filename_stays_unique scenario_env scenario_world (Ok tt)
            (snd (update_data scenario_env scenario_world))
            scenario_dataset _ "b.jpg" _ _ _ _ _).
  - vm_compute; reflexivity.
  - reflexivity.
  - vm_compute; reflexivity.
  - simpl. repeat constructor; simpl; intuition discriminate.
  - simpl. tauto.
Defined.

Lemma empty_update_is_a_no_op_witness :
  exists w' evs,
    update_data quiet_env later_world = (Ok tt, w') /\
    persisted (disk w') = persisted (disk later_world) /\
    trace w' = trace later_world ++ evs /\
    Forall (fun e => is_inference_or_write e = false) evs /\
    In (Stdout "Data already up to date") evs.
Proof.
  refine (empty_update_is_a_no_op quiet_env later_world (Some scenario_home)
            scenario_dataset
            (snd (find_new_images quiet_env later_world)) _).
  vm_compute; reflexivity.
Defined.


Lemma prediction_count_mismatch_is_fatal_witness :
  exists w' evs,
    update_data silent_stage_env scenario_world = (Raise AssertionError, w') /\
    persisted (disk w') = persisted (disk scenario_world) /\
    trace w' = trace scenario_world ++ evs /\
    Forall (fun e => is_write e = false) evs.
Proof.
  refine (prediction_count_mismatch_is_fatal silent_stage_env scenario_world
            scenario_home scenario_dataset ["c.jpg"]
            (snd (find_new_images silent_stage_env scenario_world)) _ _ _).
  - vm_compute; reflexivity.
  - discriminate.
  - left. simpl. discriminate.
Defined.

Lemma checkpoint_after_run_witness :
  last_updated (disk (snd (update_data scenario_env scenario_world)))
  = Some "03/09/20".
Proof.
  refine (proj1 (checkpoint_after_run scenario_env scenario_world
                   (Some scenario_home) scenario_dataset ["c.jpg"]
                   (snd (find_new_images scenario_env scenario_world)) (Ok tt)
                   (snd (update_data scenario_env scenario_world)) _ _ _ _)
            _ _).
  - vm_compute; reflexivity.
  - vm_compute; reflexivity.
  - simpl; lia.
  - simpl; lia.
  - discriminate.
  - reflexivity.
Defined.

Lemma extra_argument_leaves_image_home_dir_unbound_witness :
  exists w',
    update_data extra_argument_env scenario_world
    = (Raise (NameError "image_home_dir"), w') /\
    persisted (disk w') = persisted (disk scenario_world).
Proof.
  refine (extra_argument_leaves_image_home_dir_unbound extra_argument_env
            scenario_world "03/01/20"
            {| fname := "b.jpg"; stage := "10"; locations := "limb" |}
            (tl scenario_rows) scenario_dataset _ _ _ _).
  - simpl. lia.
  - reflexivity.
  - reflexivity.
  - reflexivity.
Defined.

Lemma no_new_records_is_up_to_date_witness :
  update_data quiet_env later_world
  = (Ok tt,
     {| disk := set_new_images_csv (Some (Rows []))
                  (set_temporary_downloads true (disk later_world));
        trace := trace later_world
                   ++ [Stdout "Checking for new images";
                       UrlRetrieve (new_images_metadata_url "03/01/20");
                       Stdout "Data already up to date"] |})
  /\ persisted (set_new_images_csv (Some (Rows []))
                  (set_temporary_downloads true (disk later_world)))
     = persisted (disk later_world).
Proof.
  refine (no_new_records_is_up_to_date quiet_env later_world "03/01/20"
            scenario_dataset _ _ _ _).
  - simpl. discriminate.
  - reflexivity.
  - reflexivity.
  - reflexivity.
Defined.

Lemma filter_output_is_sorted_and_duplicate_free_witness :
  NoDup ["c.jpg"; "d.jpg"]
  /\ StronglySorted str_lt ["c.jpg"; "d.jpg"]
  /\ (forall f, count_occ string_dec ["c.jpg"; "d.jpg"] f <= 1)
  /\ (forall fnames',
        (forall f, In f (map fname shuffled_rows) <-> In f fnames') ->
        remove_saved_or_missing shuffled_env (Some scenario_home)
          ["a.jpg"; "b.jpg"] fnames' scenario_world
        = (Ok ["c.jpg"; "d.jpg"], scenario_world)).
Proof.
  refine (filter_output_is_sorted_and_duplicate_free shuffled_env
            (Some scenario_home) ["a.jpg"; "b.jpg"] (map fname shuffled_rows)
            scenario_world ["c.jpg"; "d.jpg"] scenario_world _).
  vm_compute; reflexivity.
Defined.

(** ** More on lines 31-68 *)

(** Past the usage check and the checkpoint read, lines 31-68 end where the
    filter ends, with the download stored and two events emitted. *)
Lemma find_new_images_reaches_filter env w since rows db :
  length (sys_argv env) <> 1 ->
  last_updated (disk w) = Some since ->
  urlretrieve env (new_images_metadata_url since) = Some (Rows rows) ->
  database_image_predictions (disk w) = Some db ->
  let w1 := {| disk := set_new_images_csv (Some (Rows rows))
                         (set_temporary_downloads true (disk w));
               trace := trace w ++ [Stdout "Checking for new images";
                                    UrlRetrieve (new_images_metadata_url since)] |} in
  find_new_images env w
  = match remove_saved_or_missing env (image_home_dir_of (sys_argv env))
            (database_image_filenames db) (map fname rows) w1 with
    | (Ok kept, _) => (Ok (image_home_dir_of (sys_argv env), db, kept), w1)
    | (Raise e, _) => (Raise e, w1)
    end.
Proof.
  intros A1 L U D w1. apply Nat.eqb_neq in A1.
  unfold find_new_images. unfold bind at 1. unfold grab_image_home_dir.
  rewrite A1.
  assert (G : (if length (sys_argv env) =? 2
               then ret (Some (nth 1 (sys_argv env) EmptyString)) else ret None) w
              = (Ok (image_home_dir_of (sys_argv env)), w))
    by (unfold image_home_dir_of; destruct (length (sys_argv env) =? 2); reflexivity).
  rewrite G. clear G.
  generalize (image_home_dir_of (sys_argv env)). intros h0.
  unfold_script. cbn -[new_images_metadata_url remove_saved_or_missing].
  rewrite L. cbn -[new_images_metadata_url remove_saved_or_missing].
  rewrite U. cbn -[new_images_metadata_url remove_saved_or_missing].
  rewrite D.
  assert (T : (trace w ++ [Stdout "Checking for new images"])
                ++ [UrlRetrieve (new_images_metadata_url since)]
              = trace w ++ [Stdout "Checking for new images";
                            UrlRetrieve (new_images_metadata_url since)])
    by (now rewrite <- app_assoc).
  rewrite T. fold w1.
  destruct (remove_saved_or_missing env h0 (database_image_filenames db)
              (map fname rows) w1) as [r0 w0] eqn:R.
  pose proof (remove_saved_or_missing_world _ _ _ _ _ _ _ R) as ->.
  destruct r0; reflexivity.
Qed.

(** The events of lines 31-68 once the checkpoint has been read. *)
Lemma find_new_images_events env w r w1 since :
  length (sys_argv env) <> 1 ->
  last_updated (disk w) = Some since ->
  find_new_images env w = (r, w1) ->
  trace w1 = trace w ++ [Stdout "Checking for new images";
                         UrlRetrieve (new_images_metadata_url since)].
Proof.
  intros A1 L. apply Nat.eqb_neq in A1.
  unfold find_new_images. unfold bind at 1. unfold grab_image_home_dir.
  rewrite A1.
  assert (G : exists h0, (if length (sys_argv env) =? 2
               then ret (Some (nth 1 (sys_argv env) EmptyString)) else ret None) w
              = (Ok h0, w))
    by (destruct (length (sys_argv env) =? 2); eexists; reflexivity).
  destruct G as [h0 G]. rewrite G. clear G.
  unfold_script. cbn -[new_images_metadata_url remove_saved_or_missing].
  rewrite L. cbn -[new_images_metadata_url remove_saved_or_missing].
  destruct (urlretrieve env (new_images_metadata_url since)) as [[| rows |] |];
    cbn -[new_images_metadata_url remove_saved_or_missing];
    try (intros E; inversion E; subst; cbn; now rewrite <- app_assoc).
  2:{ destruct (database_image_predictions (disk w)) as [db |];
        [destruct h0 as [home |] |];
        intros E; inversion E; subst; cbn; now rewrite <- app_assoc. }
  destruct (database_image_predictions (disk w)) as [db |];
    try (intros E; inversion E; subst; cbn; now rewrite <- app_assoc).
  match goal with
  | |- context [remove_saved_or_missing ?e ?h ?s ?f ?w0] =>
      destruct (remove_saved_or_missing e h s f w0) as [r0 w0'] eqn:R
  end.
  pose proof (remove_saved_or_missing_world _ _ _ _ _ _ _ R) as ->.
  destruct r0; intros E; inversion E; subst; cbn; now rewrite <- app_assoc.
Qed.


(** ** More on lines 71-121 *)

(** An exception that is not a failed write finds the disk as it was. *)
Lemma begin_update_abort_disk env h db new w e w' :
  begin_update env h db new w = (Raise e, w') ->
  (forall file, e <> OSError file) ->
  disk w' = disk w.
Proof.
  destruct new as [| name rest].
  { rewrite begin_update_empty. discriminate. }
  destruct h as [home |].
  2:{ rewrite begin_update_unbound. intros E; inversion E; subst. reflexivity. }
  run_update; intros E N; inversion E; subst; cbn; try reflexivity;
    exfalso; eapply N; reflexivity.
Qed.


(** The files opened for writing by lines 71-121 are an initial part of
    [write_order]. *)
Lemma begin_update_write_order env h db new w r w' :
  begin_update env h db new w = (r, w') ->
  exists evs rest,
    trace w' = trace w ++ evs
    /\ filter is_write evs ++ rest = write_order
    /\ Forall (fun e => is_url_request e = false) evs.
Proof.
  destruct new as [| name rest].
  { rewrite begin_update_empty. intros E; inversion E; subst.
    eexists. eexists. split; [reflexivity |]. split; [reflexivity |].
    repeat constructor. }
  destruct h as [home |].
  2:{ rewrite begin_update_unbound. intros E; inversion E; subst.
      exists []. eexists. split; [now rewrite app_nil_r |].
      split; [reflexivity | constructor]. }
  run_update; intros E; inversion E; subst; cbn -[str_of_nat String.append length];
    (eexists; eexists; split; [rewrite <- !app_assoc; reflexivity |];
     split; [reflexivity | repeat constructor]).
Qed.

(** ** Further properties of the run *)

(** X1: started without its argument, the script raises [TypeError] at once:
    no directory is made, no request is sent, no message is printed and no
    file is read or written. *)
Theorem no_argument_is_a_usage_error env w :
  length (sys_argv env) = 1 ->
  update_data env w = (Raise TypeError, w).
Proof.
  intros A. unfold update_data, find_new_images, grab_image_home_dir, bind, raise.
  rewrite A. reflexivity.
Qed.


(** X3: a run that stops on any exception other than a failed write leaves
    the checkpoint, the dataset and the log exactly as they were. *)
Theorem abort_without_write_error_keeps_persisted env w e w' :
  update_data env w = (Raise e, w') ->
  (forall file, e <> OSError file) ->
  persisted (disk w') = persisted (disk w).
Proof.
  intros U N.
  destruct (find_new_images env w) as [r1 w1] eqn:F.
  destruct (find_new_images_inv _ _ _ _ F) as [P _].
  destruct r1 as [[[h db] new] | e1].
  - rewrite (update_data_continues _ _ _ _ _ _ F) in U.
    now rewrite (begin_update_abort_disk _ _ _ _ _ _ _ U N).
  - rewrite (update_data_stops _ _ _ _ F) in U. inversion U; subst. exact P.
Qed.

(** What a run can leave in the dataset file. *)
Lemma update_data_dataset_cases env w r w' db :
  update_data env w = (r, w') ->
  database_image_predictions (disk w) = Some db ->
  database_image_predictions (disk w') = Some db
  \/ database_image_predictions (disk w') = None
  \/ exists home since rows new,
       image_home_dir_of (sys_argv env) = Some home /\
       last_updated (disk w) = Some since /\
       urlretrieve env (new_images_metadata_url since) = Some (Rows rows) /\
       new = np.setdiff1d (map fname rows)
               (filter (to_remove env home (database_image_filenames db))
                  (map fname rows)) /\
       new <> [] /\
       database_image_predictions (disk w')
       = Some (merge db new
                 (stage_get_preds env (make_databunch home new))
                 (locations_get_preds env (make_databunch home new))).
Proof.
  intros U Hdb.
  destruct (find_new_images env w) as [r1 w1] eqn:F.
  destruct (find_new_images_inv _ _ _ _ F) as [P [_ Hok]].
  apply persisted_fields in P. destruct P as [_ [Pd _]].
  destruct r1 as [[[h db0] new] | e].
  - destruct (Hok _ _ _ eq_refl) as [Hdb0 [Hh [since [rows [L [Uf R]]]]]].
    assert (db0 = db) by congruence. subst db0.
    rewrite (update_data_continues _ _ _ _ _ _ F) in U.
    destruct (begin_update_dataset _ _ _ _ _ _ _ U)
      as [E | [E | [home [-> [Hne [_ E]]]]]].
    + left. congruence.
    + right. now left.
    + right. right. exists home, since, rows, new.
      rewrite remove_saved_or_missing_bound in R. inversion R as [Hnew].
      rewrite Hnew. repeat split; auto.
  - rewrite (update_data_stops _ _ _ _ F) in U. inversion U; subst.
    left. congruence.
Qed.

(** X4: a filename found in the dataset after a run was there before the run,
    or was fetched by this run, was not saved yet, and names a path that
    exists when appended to the directory string: an image missing from the
    disk is never persisted. *)
Theorem persisted_names_were_saved_or_exist env w r w' db db' f :
  update_data env w = (r, w') ->
  database_image_predictions (disk w) = Some db ->
  database_image_predictions (disk w') = Some db' ->
  In f (database_image_filenames db') ->
  In f (database_image_filenames db)
  \/ exists home since rows,
       image_home_dir_of (sys_argv env) = Some home /\
       last_updated (disk w) = Some since /\
       urlretrieve env (new_images_metadata_url since) = Some (Rows rows) /\
       In f (map fname rows) /\
       ~ In f (database_image_filenames db) /\
       os_path_exists env (home ++ f)%string = true.
Proof.
  intros U Hdb Hdb' Hin.
  destruct (update_data_dataset_cases _ _ _ _ _ U Hdb)
    as [E | [E | [home [since [rows [new [Hh [L [Uf [Hnew [_ E]]]]]]]]]]].
  - left. congruence.
  - congruence.
  - assert (db' = merge db new
                    (stage_get_preds env (make_databunch home new))
                    (locations_get_preds env (make_databunch home new)))
      by congruence. subst db'.
    cbn [merge database_image_filenames] in Hin. unfold np.append in Hin.
    apply in_app_or in Hin. destruct Hin as [Hin | Hin]; [now left |].
    right. exists home, since, rows. rewrite Hnew in Hin.
    apply In_kept in Hin. tauto.
Qed.

(** X5: a run never rewrites what the dataset already holds: the filenames,
    the stage rows and the locations rows found after a run start with the
    ones found before it, in the same positions. *)
Theorem existing_entries_keep_their_place env w r w' db db' :
  update_data env w = (r, w') ->
  database_image_predictions (disk w) = Some db ->
  database_image_predictions (disk w') = Some db' ->
  exists new stage_rows locations_rows,
    database_image_filenames db' = database_image_filenames db ++ new /\
    database_image_stages db' = database_image_stages db ++ stage_rows /\
    database_image_locations db' = database_image_locations db ++ locations_rows.
Proof.
  intros U Hdb Hdb'.
  destruct (update_data_dataset_cases _ _ _ _ _ U Hdb)
    as [E | [E | [home [since [rows [new [_ [_ [_ [_ [_ E]]]]]]]]]]].
  - assert (db' = db) by congruence. subst.
    exists [], [], []. now rewrite !app_nil_r.
  - congruence.
  - assert (Hd : db' = merge db new
                    (stage_get_preds env (make_databunch home new))
                    (locations_get_preds env (make_databunch home new)))
      by congruence.
    rewrite Hd. eexists. eexists. eexists. repeat split; reflexivity.
Qed.


Lemma unique_of_strictly_sorted (l : list string) :
  StronglySorted str_lt l -> np.unique l = l.
Proof.
  intros S. apply strictly_sorted_ext; [apply unique_sorted | exact S |].
  intros x. apply In_unique.
Qed.

Lemma strictly_sorted_without_member (l : list string) :
  StronglySorted str_lt l -> (forall x, ~ In x l) -> l = [].
Proof.
  intros _ H. destruct l as [| a l]; [reflexivity |].
  exfalso. apply (H a). now left.
Qed.

(** X8: the filter is idempotent: given its own output as the fetched names,
    it returns that output unchanged. *)
Theorem filter_is_idempotent env home saved fnames w kept w1 :
  remove_saved_or_missing env (Some home) saved fnames w = (Ok kept, w1) ->
  remove_saved_or_missing env (Some home) saved kept w1 = (Ok kept, w1).
Proof.
  rewrite !remove_saved_or_missing_bound. intros E. inversion E as [[Hk Hw]].
  rewrite Hk. do 2 f_equal.
  assert (S : StronglySorted str_lt kept) by (rewrite <- Hk; apply setdiff1d_sorted).
  apply strictly_sorted_ext; [apply setdiff1d_sorted | exact S |].
  intros x. rewrite In_kept. split; [tauto |].
  intros Hx. split; [exact Hx |].
  rewrite <- Hk in Hx. apply In_kept in Hx. tauto.
Qed.

(** X9: in every run the events fall in two parts: first the part in which
    the script opens no file for writing, and in which the call of line 52
    stores the scratch download; then the part without any request to the
    endpoint, in which the script opens for writing the dataset file, the
    checkpoint and the log, in that order, each at most once and none before
    the one ahead of it. *)
Theorem files_are_written_in_order env w r w' :
  update_data env w = (r, w') ->
  exists fetching updating rest,
    trace w' = trace w ++ fetching ++ updating /\
    Forall (fun e => is_write e = false) fetching /\
    Forall (fun e => is_url_request e = false) updating /\
    filter is_write updating ++ rest = write_order.
Proof.
  intros U.
  destruct (find_new_images env w) as [r1 w1] eqn:F.
  destruct (find_new_images_inv _ _ _ _ F) as [_ [[evs1 [T Q]] _]].
  assert (N : Forall (fun e => is_write e = false) evs1).
  { eapply Forall_impl; [| exact Q].
    intros e He. destruct e; simpl in *; congruence. }
  destruct r1 as [[[h db] new] | e1].
  - rewrite (update_data_continues _ _ _ _ _ _ F) in U.
    destruct (begin_update_write_order _ _ _ _ _ _ _ U) as [evs2 [rest [T2 [O Q2]]]].
    exists evs1, evs2, rest. split; [| auto].
    rewrite T2, T. now rewrite app_assoc.
  - rewrite (update_data_stops _ _ _ _ F) in U. inversion U; subst.
    exists evs1, []. eexists. split; [now rewrite app_nil_r |].
    split; [exact N |]. split; [constructor | reflexivity].
Qed.

Lemma digit_is_one_character (k : nat) :
  k < 10 -> exists c, str_of_nat k = String c EmptyString.
Proof.
  intros H. do 10 (destruct k as [| k]; [eexists; reflexivity |]). lia.
Qed.

Lemma two_digits_shape (n : nat) :
  exists a b, two_digits n = String a (String b EmptyString).
Proof.
  unfold two_digits.
  destruct (digit_is_one_character ((n mod 100) / 10)) as [a Ha].
  { apply Nat.Div0.div_lt_upper_bound.
    pose proof (Nat.mod_upper_bound n 100). lia. }
  destruct (digit_is_one_character (n mod 10)) as [b Hb].
  { apply Nat.mod_upper_bound. lia. }
  exists a, b. rewrite Ha, Hb. reflexivity.
Qed.

(** X10: the date written to the checkpoint and to the log always has the
    shape of eight characters with a slash in third and in sixth place. *)
Theorem strftime_has_fixed_shape (d : date) :
  String.length (strftime d) = 8
  /\ String.get 2 (strftime d) = Some "/"%char
  /\ String.get 5 (strftime d) = Some "/"%char.
Proof.
  unfold strftime.
  destruct (two_digits_shape (month d)) as [a [b ->]].
  destruct (two_digits_shape (day d)) as [a' [b' ->]].
  destruct (two_digits_shape (year d)) as [a'' [b'' ->]].
  repeat split; reflexivity.
Qed.

(** X11: when the script has its one argument, the checkpoint and the
    dataset are readable, the endpoint answers with rows whose filenames are
    all text, the filter keeps at least one name, both learners return one
    row per kept name, of the width of the rows already saved, and the three
    writes complete, the run ends normally: the dataset file holds the
    former filenames and rows followed by the kept names and the new rows,
    the checkpoint holds the date of the run as month/day/year in two
    digits each, the log holds its former text followed by the line of the
    run, and the scratch file holds the rows. *)
Theorem update_succeeds_when_everything_answers
    env w since rows db home kept stage_width locations_width :
  image_home_dir_of (sys_argv env) = Some home ->
  last_updated (disk w) = Some since ->
  urlretrieve env (new_images_metadata_url since) = Some (Rows rows) ->
  database_image_predictions (disk w) = Some db ->
  remove_saved_or_missing env (Some home) (database_image_filenames db)
    (map fname rows) w = (Ok kept, w) ->
  kept <> [] ->
  let new_image_data :=
    {| path := home; items := kept; bs := Nat.min 64 (length kept) |} in
  let new_stage_preds := stage_get_preds env new_image_data in
  let new_locations_preds := locations_get_preds env new_image_data in
  length (fst new_stage_preds) = length kept ->
  length (fst new_locations_preds) = length kept ->
  uniform_width stage_width
    (database_image_stages db ++ fst new_stage_preds) ->
  uniform_width locations_width
    (database_image_locations db ++ fst new_locations_preds) ->
  1 <= month (date_today env) <= 12 ->
  1 <= day (date_today env) <= 31 ->
  dataset_write env = Completed ->
  last_updated_write env = Completed ->
  log_write env = Completed ->
  let current_date :=
    String (decimal_digit (month (date_today env) / 10))
    (String (decimal_digit (month (date_today env) mod 10))
    (String "/"
    (String (decimal_digit (day (date_today env) / 10))
    (String (decimal_digit (day (date_today env) mod 10))
    (String "/"
    (String (decimal_digit (year (date_today env) mod 100 / 10))
    (String (decimal_digit (year (date_today env) mod 10))
       EmptyString))))))) in
  exists w',
    update_data env w = (Ok tt, w') /\
    last_updated (disk w') = Some current_date /\
    database_image_predictions (disk w')
    = Some {| database_image_filenames := database_image_filenames db ++ kept;
              database_image_stages :=
                database_image_stages db ++ fst new_stage_preds;
              database_image_locations :=
                database_image_locations db ++ fst new_locations_preds |} /\
    data_updates_log (disk w')
    = Some (file_text (data_updates_log (disk w))
              ++ current_date ++ ": Added " ++ str_of_nat (length kept)
              ++ " images (" ++ String.concat " " kept ++ ")"
              ++ String (ascii_of_nat 10) EmptyString)%string /\
    new_images_csv (disk w') = Some (Rows rows).
Proof.
  intros Hh L U D R Hne new_image_data new_stage_preds new_locations_preds
    N1 N2 Us Ul Hm Hd W1 W2 W3 current_date.
  assert (Ed : strftime (date_today env) = current_date).
  { unfold strftime, current_date. rewrite !two_digits_characters.
    rewrite (Nat.mod_small (month (date_today env)) 100) by lia.
    rewrite (Nat.mod_small (day (date_today env)) 100) by lia.
    reflexivity. }
  assert (A1 : length (sys_argv env) <> 1).
  { unfold image_home_dir_of in Hh. intros A. rewrite A in Hh. discriminate. }
  pose proof (find_new_images_reaches_filter env w since rows db A1 L U D) as F.
  cbv zeta in F. rewrite Hh in F.
  rewrite remove_saved_or_missing_bound in R.
  assert (Hk : np.setdiff1d (map fname rows)
                 (filter (to_remove env home (database_image_filenames db))
                    (map fname rows)) = kept)
    by (inversion R; reflexivity).
  rewrite remove_saved_or_missing_bound, Hk in F.
  unfold update_data, bind. rewrite F.
  clear Hk R F Us Ul.
  subst new_stage_preds new_locations_preds new_image_data.
  change {| path := home; items := kept; bs := Nat.min 64 (length kept) |}
    with (make_databunch home kept) in *.
  destruct kept as [| name rest]; [contradiction |].
  run_update; try congruence.
  eexists. split; [reflexivity |].
  cbn -[log_line strftime merge make_databunch str_of_nat String.append
        String.concat length].
  rewrite Ed. unfold log_line, merge, np.append, torch.cat.
  repeat split; reflexivity.
Qed.

(** X12: once the checkpoint has been read, a run calls [urlretrieve]
    exactly once, and the address string it passes is the fixed prefix
    followed by the checkpoint text as it was read from the file; the script
    does not check or trim that text. *)
Theorem one_request_built_from_checkpoint env w r w' since :
  length (sys_argv env) <> 1 ->
  last_updated (disk w) = Some since ->
  update_data env w = (r, w') ->
  exists rest,
    trace w'
    = trace w ++ Stdout "Checking for new images"
        :: UrlRetrieve
             ("http://geisha.arizona.edu/geisha/Images/metadata?scope=public&since="
                ++ since)%string
        :: rest
    /\ Forall (fun e => is_url_request e = false) rest.
Proof.
  intros A1 L U.
  destruct (find_new_images env w) as [r1 w1] eqn:F.
  pose proof (find_new_images_events _ _ _ _ _ A1 L F) as T.
  unfold new_images_metadata_url in T.
  destruct r1 as [[[h db] new] | e1].
  - rewrite (update_data_continues _ _ _ _ _ _ F) in U.
    destruct (begin_update_write_order _ _ _ _ _ _ _ U) as [evs2 [_ [T2 [_ Q]]]].
    exists evs2. split; [| exact Q].
    rewrite T2, T, <- app_assoc. reflexivity.
  - rewrite (update_data_stops _ _ _ _ F) in U. inversion U; subst.
    exists []. split; [exact T | constructor].
Qed.

(** X13: the script cannot start a dataset: when the dataset file is absent
    or unreadable every run raises, also when nothing new was fetched, and
    the file is still absent afterwards. *)
Theorem unreadable_dataset_never_recovers env w r w' :
  database_image_predictions (disk w) = None ->
  update_data env w = (r, w') ->
  (exists e, r = Raise e)
  /\ persisted (disk w') = persisted (disk w).
Proof.
  intros D U.
  destruct (find_new_images env w) as [r1 w1] eqn:F.
  destruct (find_new_images_inv _ _ _ _ F) as [P [_ Hok]].
  destruct r1 as [[[h db] new] | e1].
  - destruct (Hok _ _ _ eq_refl) as [Hdb _]. congruence.
  - rewrite (update_data_stops _ _ _ _ F) in U. inversion U; subst.
    split; [eauto | exact P].
Qed.

(** After a run that ended normally the dataset file holds the former
    filenames followed by the names the filter kept. *)
Lemma successful_run_dataset env w w' home since rows :
  image_home_dir_of (sys_argv env) = Some home ->
  last_updated (disk w) = Some since ->
  urlretrieve env (new_images_metadata_url since) = Some (Rows rows) ->
  update_data env w = (Ok tt, w') ->
  exists db db',
    database_image_predictions (disk w) = Some db /\
    database_image_predictions (disk w') = Some db' /\
    database_image_filenames db'
    = database_image_filenames db
        ++ np.setdiff1d (map fname rows)
             (filter (to_remove env home (database_image_filenames db))
                (map fname rows)).
Proof.
  intros Hh L Uf U.
  destruct (find_new_images env w) as [r1 w1] eqn:F.
  destruct (find_new_images_inv _ _ _ _ F) as [P [_ Hok]].
  apply persisted_fields in P. destruct P as [_ [Pd _]].
  destruct r1 as [[[h db] new] | e].
  2:{ rewrite (update_data_stops _ _ _ _ F) in U. discriminate. }
  destruct (Hok _ _ _ eq_refl) as [Hdb [Hh' [since' [rows' [L' [Uf' R]]]]]].
  assert (since' = since) by congruence. subst since'.
  assert (rows' = rows) by congruence. subst rows'.
  assert (Eh : h = Some home) by congruence.
  rewrite Eh in *. clear Eh Hh'.
  rewrite remove_saved_or_missing_bound in R.
  assert (Hnew : np.setdiff1d (map fname rows)
                   (filter (to_remove env home (database_image_filenames db))
                      (map fname rows)) = new)
    by (inversion R; reflexivity).
  rewrite (update_data_continues _ _ _ _ _ _ F) in U.
  exists db. destruct new as [| name rest].
  - rewrite begin_update_empty in U. inversion U; subst. cbn [disk].
    exists db. rewrite Hnew, app_nil_r. repeat split; congruence.
  - destruct (begin_update_ok _ _ _ _ _ _ _ U) as [_ [_ Pw]].
    apply (f_equal (fun t => snd (fst t))) in Pw. cbn [persisted fst snd] in Pw.
    eexists. split; [exact Hdb |]. split; [exact Pw |].
    rewrite Hnew. reflexivity.
Qed.

(** X7: running the script again over images it has already seen changes
    nothing: after a run that ended normally, a second run with the same
    argument and the same disk, whose metadata names only filenames the
    first run had fetched, takes the "up to date" path and leaves the
    checkpoint, the dataset and the log as the first run left them. *)
Theorem rerun_over_same_images_is_up_to_date
    env env2 w w' home since rows since2 rows2 :
  image_home_dir_of (sys_argv env) = Some home ->
  sys_argv env2 = sys_argv env ->
  (forall p, os_path_exists env2 p = os_path_exists env p) ->
  last_updated (disk w) = Some since ->
  urlretrieve env (new_images_metadata_url since) = Some (Rows rows) ->
  update_data env w = (Ok tt, w') ->
  last_updated (disk w') = Some since2 ->
  urlretrieve env2 (new_images_metadata_url since2) = Some (Rows rows2) ->
  (forall f, In f (map fname rows2) -> In f (map fname rows)) ->
  exists w2,
    update_data env2 w' = (Ok tt, w2) /\
    persisted (disk w2) = persisted (disk w') /\
    In (Stdout "Data already up to date") (trace w2).
Proof.
  intros Hh Hargv Hdisk L Uf U L2 Uf2 Hsub.
  destruct (successful_run_dataset _ _ _ _ _ _ Hh L Uf U)
    as [db [db' [Hdb [Hdb' Hfn]]]].
  assert (Hh2 : image_home_dir_of (sys_argv env2) = Some home) by now rewrite Hargv.
  assert (A1 : length (sys_argv env2) <> 1).
  { unfold image_home_dir_of in Hh2. intros A. rewrite A in Hh2. discriminate. }
  pose proof (find_new_images_reaches_filter env2 w' since2 rows2 db' A1 L2 Uf2 Hdb') as F.
  cbv zeta in F. rewrite Hh2, remove_saved_or_missing_bound in F.
  assert (K : np.setdiff1d (map fname rows2)
                (filter (to_remove env2 home (database_image_filenames db'))
                   (map fname rows2)) = []).
  { apply strictly_sorted_without_member; [apply setdiff1d_sorted |].
    intros x Hx. apply In_kept in Hx. destruct Hx as [Hx [Hns He]].
    apply Hns. rewrite Hfn. apply in_or_app.
    right. apply In_kept. split; [now apply Hsub |].
    split; [| now rewrite <- Hdisk].
    intros Hs. apply Hns. rewrite Hfn. apply in_or_app. now left. }
  rewrite K in F.
  unfold update_data, bind. rewrite F, begin_update_empty.
  eexists. split; [reflexivity |]. cbn [disk trace]. split; [reflexivity |].
  apply in_or_app. right. now left.
Qed.

(** ** The further properties at work on the scenario *)

Lemma no_argument_is_a_usage_error_witness :
  update_data no_argument_env scenario_world = (Raise TypeError, scenario_world).
Proof.
  refine (no_argument_is_a_usage_error no_argument_env scenario_world _).
  reflexivity.
Defined.


Lemma abort_without_write_error_keeps_persisted_witness :
  persisted (disk (snd (update_data offline_env scenario_world)))
  = persisted (disk scenario_world).
Proof.
  refine (abort_without_write_error_keeps_persisted offline_env scenario_world
            URLError (snd (update_data offline_env scenario_world)) _ _).
  - vm_compute; reflexivity.
  - discriminate.
Defined.

Lemma persisted_names_were_saved_or_exist_witness :
  In "c.jpg" (database_image_filenames scenario_dataset)
  \/ exists home since rows,
       image_home_dir_of (sys_argv scenario_env) = Some home /\
       last_updated (disk scenario_world) = Some since /\
       urlretrieve scenario_env (new_images_metadata_url since)
       = Some (Rows rows) /\
       In "c.jpg" (map fname rows) /\
       ~ In "c.jpg" (database_image_filenames scenario_dataset) /\
       os_path_exists scenario_env (home ++ "c.jpg")%string = true.
Proof.
  refine (persisted_names_were_saved_or_exist scenario_env scenario_world
            (Ok tt) (snd (update_data scenario_env scenario_world))
            scenario_dataset
            (merge scenario_dataset ["c.jpg"]
               ([scenario_row 7], []) ([scenario_row 9], []))
            "c.jpg" _ _ _ _).
  - vm_compute; reflexivity.
  - reflexivity.
  - vm_compute; reflexivity.
  - simpl. tauto.
Defined.

Lemma existing_entries_keep_their_place_witness :
  exists new stage_rows locations_rows,
    ["a.jpg"; "b.jpg"; "c.jpg"]
    = database_image_filenames scenario_dataset ++ new /\
    database_image_stages scenario_dataset ++ [scenario_row 7]
    = database_image_stages scenario_dataset ++ stage_rows /\
    database_image_locations scenario_dataset ++ [scenario_row 9]
    = database_image_locations scenario_dataset ++ locations_rows.
Proof.
  refine (existing_entries_keep_their_place scenario_env scenario_world
            (Ok tt) (snd (update_data scenario_env scenario_world))
            scenario_dataset
            (merge scenario_dataset ["c.jpg"]
               ([scenario_row 7], []) ([scenario_row 9], []))
            _ _ _).
  - vm_compute; reflexivity.
  - reflexivity.
  - vm_compute; reflexivity.
Defined.


Lemma rerun_over_same_images_is_up_to_date_witness :
  exists w2,
    update_data scenario_env (snd (update_data scenario_env scenario_world))
    = (Ok tt, w2) /\
    persisted (disk w2)
    = persisted (disk (snd (update_data scenario_env scenario_world))) /\
    In (Stdout "Data already up to date") (trace w2).
Proof.
  refine (rerun_over_same_images_is_up_to_date scenario_env scenario_env
            scenario_world (snd (update_data scenario_env scenario_world))
            scenario_home "03/01/20" scenario_rows "03/09/20" scenario_rows
            _ _ _ _ _ _ _ _ _).
  - reflexivity.
  - reflexivity.
  - reflexivity.
  - reflexivity.
  - reflexivity.
  - vm_compute; reflexivity.
  - vm_compute; reflexivity.
  - reflexivity.
  - intros f H. exact H.
Defined.

Lemma filter_is_idempotent_witness :
  remove_saved_or_missing shuffled_env (Some scenario_home) ["a.jpg"; "b.jpg"]
    ["c.jpg"; "d.jpg"] scenario_world
  = (Ok ["c.jpg"; "d.jpg"], scenario_world).
Proof.
  refine (filter_is_idempotent shuffled_env scenario_home ["a.jpg"; "b.jpg"]
            (map fname shuffled_rows) scenario_world ["c.jpg"; "d.jpg"]
            scenario_world _).
  vm_compute; reflexivity.
Defined.

Lemma files_are_written_in_order_witness :
  exists fetching updating rest,
    trace (snd (update_data failed_dump_env scenario_world))
    = trace scenario_world ++ fetching ++ updating /\
    Forall (fun e => is_write e = false) fetching /\
    Forall (fun e => is_url_request e = false) updating /\
    filter is_write updating ++ rest = write_order.
Proof.
  refine (files_are_written_in_order failed_dump_env scenario_world
            (Raise (OSError dataset_file))
            (snd (update_data failed_dump_env scenario_world)) _).
  vm_compute; reflexivity.
Defined.

Lemma update_succeeds_when_everything_answers_witness :
  exists w',
    update_data scenario_env scenario_world = (Ok tt, w') /\
    last_updated (disk w') = Some "03/09/20" /\
    database_image_predictions (disk w')
    = Some {| database_image_filenames := ["a.jpg"; "b.jpg"; "c.jpg"];
              database_image_stages :=
                database_image_stages scenario_dataset ++ [scenario_row 7];
              database_image_locations :=
                database_image_locations scenario_dataset ++ [scenario_row 9] |} /\
    data_updates_log (disk w')
    = Some (file_text (data_updates_log (disk scenario_world))
              ++ "03/09/20" ++ ": Added " ++ str_of_nat 1
              ++ " images (" ++ String.concat " " ["c.jpg"] ++ ")"
              ++ String (ascii_of_nat 10) EmptyString)%string /\
    new_images_csv (disk w') = Some (Rows scenario_rows).
Proof.
  refine (update_succeeds_when_everything_answers scenario_env scenario_world
            "03/01/20" scenario_rows scenario_dataset scenario_home ["c.jpg"]
            2 2 _ _ _ _ _ _ _ _ _ _ _ _ _ _ _).
  - reflexivity.
  - reflexivity.
  - reflexivity.
  - reflexivity.
  - vm_compute; reflexivity.
  - discriminate.
  - reflexivity.
  - reflexivity.
  - unfold uniform_width. simpl. repeat constructor.
  - unfold uniform_width. simpl. repeat constructor.
  - simpl; lia.
  - simpl; lia.
  - reflexivity.
  - reflexivity.
  - reflexivity.
Defined.

Lemma one_request_built_from_checkpoint_witness :
  exists rest,
    trace (snd (update_data scenario_env scenario_world))
    = trace scenario_world ++ Stdout "Checking for new images"
        :: UrlRetrieve
             ("http://geisha.arizona.edu/geisha/Images/metadata?scope=public&since="
                ++ "03/01/20")%string
        :: rest
    /\ Forall (fun e => is_url_request e = false) rest.
Proof.
  refine (one_request_built_from_checkpoint scenario_env scenario_world
            (Ok tt) (snd (update_data scenario_env scenario_world))
            "03/01/20" _ _ _).
  - simpl. discriminate.
  - reflexivity.
  - vm_compute; reflexivity.
Defined.

Lemma unreadable_dataset_never_recovers_witness :
  (exists e, fst (update_data quiet_env no_dataset_world) = Raise e)
  /\ persisted (disk (snd (update_data quiet_env no_dataset_world)))
     = persisted (disk no_dataset_world).
Proof.
  refine (unreadable_dataset_never_recovers quiet_env no_dataset_world
            (fst (update_data quiet_env no_dataset_world))
            (snd (update_data quiet_env no_dataset_world)) _ _).
  - reflexivity.
  - vm_compute; reflexivity.
Defined.

(** Lines 31-68 never fail on a write. *)
Lemma find_new_images_exceptions env w e w1 :
  find_new_images env w = (Raise e, w1) -> forall file, e <> OSError file.
Proof.
  unfold find_new_images. unfold bind at 1. unfold grab_image_home_dir.
  destruct (length (sys_argv env) =? 1).
  { unfold raise. intros E; inversion E; subst. discriminate. }
  assert (G : exists h0, (if length (sys_argv env) =? 2
               then ret (Some (nth 1 (sys_argv env) EmptyString)) else ret None) w
              = (Ok h0, w))
    by (destruct (length (sys_argv env) =? 2); eexists; reflexivity).
  destruct G as [h0 G]. rewrite G. clear G.
  unfold_script. cbn -[new_images_metadata_url remove_saved_or_missing].
  destruct (last_updated (disk w)) as [since |];
    [| intros E; inversion E; subst; discriminate].
  cbn -[new_images_metadata_url remove_saved_or_missing].
  destruct (urlretrieve env (new_images_metadata_url since)) as [[| rows |] |];
    cbn -[new_images_metadata_url remove_saved_or_missing];
    try (intros E; inversion E; subst; discriminate).
  2:{ destruct (database_image_predictions (disk w)) as [db |];
        [destruct h0 as [home |] |];
        intros E; inversion E; subst; discriminate. }
  destruct (database_image_predictions (disk w)) as [db |];
    [| intros E; inversion E; subst; discriminate].
  destruct h0 as [home |].
  - rewrite remove_saved_or_missing_bound. discriminate.
  - rewrite remove_saved_or_missing_unbound.
    destruct (map fname rows); intros E; inversion E; subst; discriminate.
Qed.

Lemma begin_update_failed_dump env h db new w w' :
  dataset_write env = FailedAfterOpen ->
  begin_update env h db new w = (Raise (OSError dataset_file), w') ->
  database_image_predictions (disk w') = None.
Proof.
  intros W.
  destruct new as [| name rest].
  { rewrite begin_update_empty. discriminate. }
  destruct h as [home |].
  2:{ rewrite begin_update_unbound. discriminate. }
  run_update; intros E; inversion E; subst; try congruence; reflexivity.
Qed.

(** X14: the dump of line 106 writes over the dataset file in place: when it
    fails once the file has been opened, the file is left unreadable, and
    from then on every run of the script raises, whatever its environment. *)
Theorem failed_dump_blocks_later_runs env w w' env2 r2 w2 :
  dataset_write env = FailedAfterOpen ->
  update_data env w = (Raise (OSError dataset_file), w') ->
  update_data env2 w' = (r2, w2) ->
  database_image_predictions (disk w') = None
  /\ (exists e, r2 = Raise e)
  /\ database_image_predictions (disk w2) = None.
Proof.
  intros W U U2.
  assert (D : database_image_predictions (disk w') = None).
  { destruct (find_new_images env w) as [r1 w1] eqn:F.
    destruct r1 as [[[h db] new] | e1].
    - rewrite (update_data_continues _ _ _ _ _ _ F) in U.
      exact (begin_update_failed_dump _ _ _ _ _ _ W U).
    - rewrite (update_data_stops _ _ _ _ F) in U. inversion U; subst.
      exfalso. exact (find_new_images_exceptions _ _ _ _ F dataset_file eq_refl). }
  split; [exact D |].
  destruct (find_new_images env2 w') as [r1 w1] eqn:F.
  destruct (find_new_images_inv _ _ _ _ F) as [P [_ Hok]].
  apply persisted_fields in P. destruct P as [_ [Pd _]].
  destruct r1 as [[[h db] new] | e1].
  - destruct (Hok _ _ _ eq_refl) as [Hdb _]. congruence.
  - rewrite (update_data_stops _ _ _ _ F) in U2. inversion U2; subst.
    split; [eauto | congruence].
Qed.

Lemma failed_dump_blocks_later_runs_witness :
  database_image_predictions
    (disk (snd (update_data failed_dump_env scenario_world))) = None
  /\ (exists e,
        fst (update_data quiet_env
               (snd (update_data failed_dump_env scenario_world))) = Raise e)
  /\ database_image_predictions
       (disk (snd (update_data quiet_env
                     (snd (update_data failed_dump_env scenario_world)))))
     = None.
Proof.
  refine (failed_dump_blocks_later_runs failed_dump_env scenario_world
            (snd (update_data failed_dump_env scenario_world)) quiet_env
            (fst (update_data quiet_env
                    (snd (update_data failed_dump_env scenario_world))))
            (snd (update_data quiet_env
                    (snd (update_data failed_dump_env scenario_world))))
            _ _ _).
  - reflexivity.
  - vm_compute; reflexivity.
  - vm_compute; reflexivity.
Defined.
